(** * create_feature_store.ipynb: ingesting a dataset into a feature store

    A shallow embedding of the notebook [2. Prepare Data/create_feature_store.ipynb].
    The notebook's own code is two functions, [cast_object_to_string] and
    [wait_for_feature_group_creation_complete], and a sequence of cells
    that call boto3, pandas and the SageMaker SDK.  The libraries are not
    part of the repository: their calls are events answered by a [World],
    and the few pandas operations the notebook's functions work through
    are modelled on data frames held as the labels of their rows and an
    ordered list of typed columns. *)

From stdpp Require Import base strings list gmap pretty.

(** IEEE doubles are kept abstract, with the four library operations the
    notebook reaches: [str(x)], [isnan], [float(z)] and [round(x)], and
    the NaN that pandas puts in a float64 cell it has no value for. *)
Class Float64 := {
  float64 : Type;
  float_str : float64 → string;
  float_isnan : float64 → bool;
  float_of_int : Z → float64;
  float_nan : float64;
  round : float64 → Z
}.

Section Notebook.
Context {F64 : Float64}.

(** ** Python objects and pandas columns *)

(** What a cell of a column can hold. [PyNA] is [pd.NA]. *)
Inductive pyobj :=
| PyStr (s : string)
| PyInt (z : Z)
| PyBool (b : bool)
| PyFloat (x : float64)
| PyNone
| PyNA.

(** [str(o)] *)
Definition str (o : pyobj) : string :=
  match o with
  | PyStr s => s
  | PyInt z => pretty z
  | PyBool true => "True"
  | PyBool false => "False"
  | PyFloat x => float_str x
  | PyNone => "None"
  | PyNA => "<NA>"
  end.

(** [pd.isna(o)] on a scalar *)
Definition isna (o : pyobj) : bool :=
  match o with
  | PyNone | PyNA => true
  | PyFloat x => float_isnan x
  | _ => false
  end.

Inductive dtype := DObject | DString | DFloat64 | DInt64 | DBool.

#[global] Instance dtype_eq_dec : EqDecision dtype.
Proof. solve_decision. Defined.

Definition dtype_name (d : dtype) : string :=
  match d with
  | DObject => "object"
  | DString => "string"
  | DFloat64 => "float64"
  | DInt64 => "int64"
  | DBool => "bool"
  end.

(** A column, with the cells its dtype stores. A [string] column holds
    text or [pd.NA]. *)
Inductive series :=
| ObjectSeries (cells : list pyobj)
| StringSeries (cells : list (option string))
| Float64Series (cells : list float64)
| Int64Series (cells : list Z)
| BoolSeries (cells : list bool).

Definition dtype_of (s : series) : dtype :=
  match s with
  | ObjectSeries _ => DObject
  | StringSeries _ => DString
  | Float64Series _ => DFloat64
  | Int64Series _ => DInt64
  | BoolSeries _ => DBool
  end.

(** The cells of a column as Python objects, as iteration yields them. *)
Definition objects (s : series) : list pyobj :=
  match s with
  | ObjectSeries l => l
  | StringSeries l => (λ c, match c with Some t => PyStr t | None => PyNA end) <$> l
  | Float64Series l => PyFloat <$> l
  | Int64Series l => PyInt <$> l
  | BoolSeries l => PyBool <$> l
  end.

Definition size (s : series) : nat := length (objects s).

(** [s.astype("str")]: every cell becomes the text [str] gives for it, in
    an object column. *)
Definition astype_str (s : series) : series :=
  ObjectSeries ((λ o, PyStr (str o)) <$> objects s).

(** [s.astype("string")]: the string dtype; missing values become
    [pd.NA], every other cell its text. *)
Definition astype_string (s : series) : series :=
  StringSeries ((λ o, if isna o then None else Some (str o)) <$> objects s).

(** ** Row labels and data frames *)

(** The rows of a frame carry labels, its index. [pd.read_csv(f)], called
    as the notebook calls it, numbers the rows 0..n-1, unless the rows of
    the file have one more field than its header: then the first field of
    each row is taken as the label of the row. The model has labels that
    are whole numbers or text. *)
Inductive row_label :=
| IntLabel (i : Z)
| TextLabel (s : string).

#[global] Instance row_label_eq_dec : EqDecision row_label.
Proof. solve_decision. Defined.

(** [pd.RangeIndex(n)]: the labels 0..n-1, the default index. *)
Definition RangeIndex (n : nat) : list row_label :=
  (λ i, IntLabel (Z.of_nat i)) <$> seq 0 n.

(** [pd.Series(data, dtype="float64")] for a list of ints: a Series made
    on its own, its cells on the labels 0..len(data)-1. *)
Definition pd_Series_float64 (data : list Z) : list float64 :=
  float_of_int <$> data.

(** What such a Series holds at a label: its cell at [i] for the label
    [i], and nothing at any other label. *)
Definition loc (cells : list float64) (label : row_label) : option float64 :=
  match label with
  | IntLabel i => if decide (0 ≤ i)%Z then cells !! Z.to_nat i else None
  | TextLabel _ => None
  end.

(** [s.reindex(index)] for such a Series, which is what pandas does to it
    when it is assigned to a column of a frame with these row labels: each
    row gets the cell the Series holds at the row's label, and NaN where it
    holds none. *)
Definition reindex (cells : list float64) (index : list row_label) : series :=
  Float64Series ((λ label, default float_nan (loc cells label)) <$> index).

(** A data frame: the labels of its rows and its labelled columns, in
    order. Column labels may repeat. *)
Record DataFrame := frame {
  index : list row_label;
  columns : list (string * series)
}.

Definition nrows (df : DataFrame) : nat := length (index df).

(** [len(df)] *)
Definition len (df : DataFrame) : nat := nrows df.

Definition labels (df : DataFrame) : list string := (columns df).*1.

Definition labelled (label : string) (df : DataFrame) : list (string * series) :=
  filter (λ c, c.1 = label) (columns df).

(** Exceptions raised inside a library, named by class and message. *)
Record lib_exn := LibExn { exn_class : string; exn_msg : string }.

Inductive lib_result (A : Type) :=
| Ok (a : A)
| Fail (e : lib_exn).
Arguments Ok {A} a.
Arguments Fail {A} e.

Definition KeyError (key : string) : lib_exn := LibExn "KeyError" key.

(** What pandas raises for [if] on a Series of several booleans. *)
Definition ambiguous_truth : lib_exn :=
  LibExn "ValueError" "The truth value of a Series is ambiguous.".

(** [if df.dtypes[label] == name]: with one column of that label the
    comparison is a boolean; with several, [dtypes[label]] is a Series,
    the comparison is a Series, and its truth value raises. *)
Definition dtype_is (df : DataFrame) (label name : string) : lib_result bool :=
  match labelled label df with
  | [] => Fail (KeyError label)
  | [c] => Ok (bool_decide (dtype_name (dtype_of c.2) = name))
  | _ => Fail ambiguous_truth
  end.

(** [df[label]] where it is a column. With a repeated label pandas gives
    a frame, which [cast_object_to_string] never reaches, its dtype test
    having raised. *)
Definition getitem (df : DataFrame) (label : string) : lib_result series :=
  match labelled label df with
  | [] => Fail (KeyError label)
  | [c] => Ok c.2
  | _ => Fail (LibExn "TypeError" "a frame, not a column")
  end.

(** [df[label] = s] for cells [s] that are already row for row those of
    the frame, as a column taken from the frame itself is and as a Series
    is once aligned on the frame's index: every column of that label is
    replaced in place; a new label is appended. The rows keep their labels. *)
Definition setitem (df : DataFrame) (label : string) (s : series) : DataFrame :=
  if bool_decide (label ∈ labels df)
  then frame (index df)
         ((λ c, if bool_decide (c.1 = label) then (label, s) else c) <$> columns df)
  else frame (index df) (columns df ++ [(label, s)]).

(** [df.head()]: the first five rows. *)
Definition head_series (s : series) : series :=
  match s with
  | ObjectSeries l => ObjectSeries (take 5 l)
  | StringSeries l => StringSeries (take 5 l)
  | Float64Series l => Float64Series (take 5 l)
  | Int64Series l => Int64Series (take 5 l)
  | BoolSeries l => BoolSeries (take 5 l)
  end.

Definition head (df : DataFrame) : DataFrame :=
  frame (take 5 (index df)) (prod_map id head_series <$> columns df).

(** ** cast_object_to_string

<<
def cast_object_to_string(data_frame):
    for label in data_frame.columns:
        if data_frame.dtypes[label] == 'object':
            data_frame[label] = data_frame[label].astype("str").astype("string")
>>
    The frame is changed in place, so the model returns the frame as the
    call leaves it together with how the call ended. *)
Fixpoint cast_loop (todo : list string) (data_frame : DataFrame)
  : lib_result unit * DataFrame :=
  match todo with
  | [] => (Ok tt, data_frame)
  | label :: todo =>
      match dtype_is data_frame label "object" with
      | Fail e => (Fail e, data_frame)
      | Ok false => cast_loop todo data_frame
      | Ok true =>
          match getitem data_frame label with
          | Fail e => (Fail e, data_frame)
          | Ok s =>
              cast_loop todo
                (setitem data_frame label (astype_string (astype_str s)))
          end
      end
  end.

Definition cast_object_to_string (data_frame : DataFrame)
  : lib_result unit * DataFrame :=
  cast_loop (labels data_frame) data_frame.

(** ** The event_time column

<<
current_time_sec = int(round(time.time()))
record_identifier_feature_name = "record_id"
event_time_feature_name = "event_time"
transaction_data[event_time_feature_name] =
    pd.Series([current_time_sec]*len(transaction_data), dtype="float64")
>>
    The Series is made on its own, so it carries the labels 0..n-1, n the
    number of rows; assigning it to the column aligns it on the frame's
    index. On the default index that is the Series as it is. On the index
    of a file whose rows have a field more than its header, a row keeps
    the reading only if its label is one of 0..n-1, and gets NaN if not. *)
Definition current_time_sec (time_time : float64) : Z := round time_time.
Definition record_identifier_feature_name : string := "record_id".
Definition event_time_feature_name : string := "event_time".

Definition event_time_series (transaction_data : DataFrame) (now : Z) : series :=
  reindex (pd_Series_float64 (replicate (len transaction_data) now))
    (index transaction_data).

Definition append_event_time (transaction_data : DataFrame) (now : Z) : DataFrame :=
  setitem transaction_data event_time_feature_name
    (event_time_series transaction_data now).

(** ** Library calls and what a run leaves behind *)

(** The calls the cells make into boto3, pandas, the SageMaker SDK and
    IPython, each with the arguments the notebook passes and, as index,
    the type of what it gives back. Handles (sessions, clients, the S3
    response, the ingestion manager) carry nothing the notebook reads and
    are [unit]. The methods of the feature group name the group they are
    called on. *)
Inductive call : Type → Type :=
| boto3_Session (region_name : option string) : call unit
| region_name : call (option string)
| boto_session_client (service_name : string) (region_name : option string) : call unit
| Session : call unit
| default_bucket : call string
| get_execution_role : call string
| boto3_client (service_name : string) (region_name : option string) : call unit
| get_object (Bucket Key : string) : call unit
| Body_read : call (list Byte.byte)
| read_csv (body : list Byte.byte) : call DataFrame
| FeatureGroup (name : string) : call unit
| time_time : call float64
| load_feature_definitions (feature_group : string) (data_frame : DataFrame) : call unit
| create (feature_group s3_uri record_identifier_name event_time_feature_name
          role_arn : string) (enable_online_store : bool) : call unit
| ingest (feature_group : string) (data_frame : DataFrame) (max_workers : Z)
         (wait : bool) : call unit
| get_record (FeatureGroupName RecordIdentifierValueAsString : string)
    : call (list (string * string))
| store (variable value : string) : call unit.

(** What the libraries and the service answer. A call is answered by what
    it is and what it is given; [describe()], the one call the notebook
    repeats, is answered by how many came before: [describe_nth n] is the
    answer when [n] did. Any call may raise instead of answering. *)
Record World := {
  respond : ∀ A, call A → lib_result A;
  describe_nth : nat → lib_result (gmap string string)
}.

(** What a cell shows as its value. *)
Inductive output :=
| OutFrame (df : DataFrame)
| OutDescription (d : gmap string string)
| OutIngestion
| OutRecord (r : list (string * string)).

(** What a run leaves behind, in order: calls with their answers, lines
    printed, sleeps, and values shown. *)
Inductive event :=
| Called {A : Type} (c : call A) (r : lib_result A)
| Described (feature_group : string) (r : lib_result (gmap string string))
| Printed (line : string)
| Slept (seconds : Z)
| Displayed (what : output).

(** An exception is the notebook's own [RuntimeError] or one that came
    out of a library call. *)
Inductive exn :=
| RuntimeError (msg : string)
| Propagated (e : lib_exn).

(** How a piece of the notebook ends. [Polling]: the fuel ran out with
    the status loop still going round. *)
Inductive outcome (A : Type) :=
| Returned (a : A)
| Raised (e : exn)
| Polling.
Arguments Returned {A} a.
Arguments Raised {A} e.
Arguments Polling {A}.

(** A computation starts with the number of [describe()] calls made so
    far, and gives how it ended, the events it added, and the new count. *)
Definition M (A : Type) : Type := nat → outcome A * list event * nat.

#[global] Instance M_ret : MRet M := λ A a n, (Returned a, [], n).
#[global] Instance M_bind : MBind M := λ A B k m n,
  match m n with
  | (Returned a, evs, n') =>
      let '(out, evs', n'') := k a n' in (out, evs ++ evs', n'')
  | (Raised e, evs, n') => (Raised e, evs, n')
  | (Polling, evs, n') => (Polling, evs, n')
  end.

Definition raise {A : Type} (e : exn) : M A := λ n, (Raised e, [], n).
Definition out_of_fuel {A : Type} : M A := λ n, (Polling, [], n).
Definition emit (e : event) : M unit := λ n, (Returned tt, [e], n).

Definition of_result {A : Type} (r : lib_result A) : outcome A :=
  match r with
  | Ok a => Returned a
  | Fail e => Raised (Propagated e)
  end.

(** A step inside pandas that touches nothing outside. *)
Definition pandas {A : Type} (r : lib_result A) : M A := λ n, (of_result r, [], n).

Definition print (line : string) : M unit := emit (Printed line).
Definition time_sleep (seconds : Z) : M unit := emit (Slept seconds).
Definition display (what : output) : M unit := emit (Displayed what).

(** The feature group object: the notebook reads its [name] and calls
    its methods. *)
Record feature_group_object := { name : string }.

Section Run.
Variable w : World.

Definition lib {A : Type} (c : call A) : M A := λ n,
  let r := respond w A c in (of_result r, [Called c r], n).

Definition describe (feature_group : feature_group_object) : M (gmap string string) := λ n,
  let r := describe_nth w n in
  (of_result r, [Described (name feature_group) r], S n).

(** ** wait_for_feature_group_creation_complete

<<
def wait_for_feature_group_creation_complete(feature_group):
    status = feature_group.describe().get("FeatureGroupStatus")
    while status == "Creating":
        print("Waiting for Feature Group Creation")
        time.sleep(5)
        status = feature_group.describe().get("FeatureGroupStatus")
    if status != "Created":
        raise RuntimeError(f"Failed to create feature group {feature_group.name}")
    print(f"FeatureGroup {feature_group.name} successfully created.")
>>
    [fuel] bounds the number of times the loop body runs. *)
Fixpoint while_creating (fuel : nat) (feature_group : feature_group_object)
    (status : option string) : M (option string) :=
  if bool_decide (status = Some "Creating") then
    match fuel with
    | 0 => out_of_fuel
    | S fuel =>
        print "Waiting for Feature Group Creation";;
        time_sleep 5;;
        d ← describe feature_group;
        while_creating fuel feature_group (d !! "FeatureGroupStatus")
    end
  else mret status.

Definition wait_for_feature_group_creation_complete (fuel : nat)
    (feature_group : feature_group_object) : M unit :=
  d ← describe feature_group;
  status ← while_creating fuel feature_group (d !! "FeatureGroupStatus");
  if bool_decide (status ≠ Some "Created") then
    raise (RuntimeError ("Failed to create feature group " +:+ name feature_group))
  else
    print ("FeatureGroup " +:+ name feature_group +:+ " successfully created.").

(** The status a poll reads: what [describe()] number [n] gives for
    [.get("FeatureGroupStatus")], [None] where the key is missing. *)
Definition polled (n : nat) : lib_result (option string) :=
  match describe_nth w n with
  | Ok d => Ok (d !! "FeatureGroupStatus")
  | Fail e => Fail e
  end.

(** From [describe()] number [n] on, [k] polls read "Creating" and the
    next one reads [status], which is something else. *)
Definition settles (n k : nat) (status : option string) : Prop :=
  (∀ j, j < k → polled (n + j) = Ok (Some "Creating")) ∧
  polled (n + k) = Ok status ∧ status ≠ Some "Creating".

(** The polling of [wait_for_feature_group_creation_complete]: its first
    [describe()] and its loop. *)
Definition polls (fuel : nat) (feature_group : feature_group_object)
  : M (option string) :=
  d ← describe feature_group;
  while_creating fuel feature_group (d !! "FeatureGroupStatus").

(** The call comes to an end, by returning or by raising, when some
    amount of fuel is enough for it. *)
Definition terminates (feature_group : feature_group_object) (n : nat) : Prop :=
  ∃ fuel, (wait_for_feature_group_creation_complete fuel feature_group n).1.1 ≠ Polling.

(** ** The cells, in order *)

Definition prefix : string := "sagemaker-featurestore-demo".
Definition data_file_key : string := "data/fraud-detection/credit-dataset.csv".
Definition fd_feature_group_name : string := "transactionfeaturegroup001".
Definition record_identifier_value : string := str (PyInt 100).

(** The cells are run from the top, and the run ends where a cell
    raises. The value a cell ends with is shown, unless a [;] follows it. *)
Definition notebook (fuel : nat) : M unit :=
  (* Setup SageMaker FeatureStore *)
  lib (boto3_Session None);;
  region ← lib region_name;
  lib (boto3_Session region);;
  lib (boto_session_client "sagemaker" region);;
  lib (boto_session_client "sagemaker-featurestore-runtime" region);;
  lib Session;;
  default_s3_bucket_name ← lib default_bucket;
  print default_s3_bucket_name;;
  role ← lib get_execution_role;
  print role;;
  (* Load data *)
  lib (boto3_client "s3" region);;
  let fraud_detection_bucket_name := default_s3_bucket_name in
  lib (get_object fraud_detection_bucket_name data_file_key);;
  body ← lib Body_read;
  transaction_data ← lib (read_csv body);
  display (OutFrame (head transaction_data));;
  (* Ingest Data into FeatureStore *)
  lib (FeatureGroup fd_feature_group_name);;
  let fd_feature_group := {| name := fd_feature_group_name |} in
  now ← lib time_time;
  let current_time_sec := current_time_sec now in
  let '(cast, transaction_data) := cast_object_to_string transaction_data in
  pandas cast;;
  let transaction_data := append_event_time transaction_data current_time_sec in
  lib (load_feature_definitions (name fd_feature_group) transaction_data);;
  (* Create FeatureGroups in SageMaker FeatureStore *)
  lib (create (name fd_feature_group)
         ("s3://" +:+ default_s3_bucket_name +:+ "/" +:+ prefix)
         record_identifier_feature_name event_time_feature_name role true);;
  wait_for_feature_group_creation_complete fuel fd_feature_group;;
  d ← describe fd_feature_group;
  display (OutDescription d);;
  (* PutRecords into FeatureGroup *)
  lib (ingest (name fd_feature_group) transaction_data 3 true);;
  display OutIngestion;;
  r ← lib (get_record fd_feature_group_name record_identifier_value);
  display (OutRecord r);;
  lib (store "fd_feature_group_name" fd_feature_group_name).

End Run.

(** A run of the whole notebook: how it ended and the events, in order. *)
Definition run (w : World) (fuel : nat) : outcome unit * list event :=
  (notebook w fuel 0).1.

(** The frame the notebook hands to the SDK, from the frame [read_csv]
    gave and the clock reading. *)
Definition prepared (transaction_data : DataFrame) (now : float64) : DataFrame :=
  append_event_time (cast_object_to_string transaction_data).2 (current_time_sec now).

(** ** Reading a run's events *)

(** What matters to the lookup: the group's creation, the ingest call
    coming back, and the lookups themselves. *)
Inductive lookup_step :=
| GroupCreated (feature_group : string)
| IngestDone
| Lookup (FeatureGroupName RecordIdentifierValueAsString : string).

Definition lookup_step_of (e : event) : option lookup_step :=
  match e with
  | Called (create g _ _ _ _ _) (Ok _) => Some (GroupCreated g)
  | Called (ingest _ _ _ _) (Ok _) => Some IngestDone
  | Called (get_record g v) _ => Some (Lookup g v)
  | _ => None
  end.

Definition ingest_of (e : event) : option (string * DataFrame * Z * bool) :=
  match e with
  | Called (ingest g df workers wait) _ => Some (g, df, workers, wait)
  | _ => None
  end.

Definition ingested (e : event) : bool :=
  match e with
  | Called (ingest _ _ _ _) (Ok _) => true
  | _ => false
  end.

Definition is_lookup (e : event) : bool :=
  match e with
  | Called (get_record _ _) _ => true
  | _ => false
  end.

Definition parsed (e : event) : bool :=
  match e with
  | Called (read_csv _) (Ok _) => true
  | _ => false
  end.

Definition clock_of (e : event) : option (lib_result float64) :=
  match e in event return option (lib_result float64) with
  | @Called A c r =>
      match c in call A' return lib_result A' → option (lib_result float64) with
      | time_time => λ r, Some r
      | _ => λ _, None
      end r
  | _ => None
  end.

(** The calls that register the schema. *)
Inductive registration :=
| Loaded (feature_group : string) (data_frame : DataFrame)
| Created (feature_group s3_uri record_identifier_name event_time_feature_name
           role_arn : string) (enable_online_store : bool).

Definition registration_of (e : event) : option registration :=
  match e with
  | Called (load_feature_definitions g df) _ => Some (Loaded g df)
  | Called (create g uri rid et role online) _ => Some (Created g uri rid et role online)
  | _ => None
  end.

(** The operations of the feature-store service and of the SDK's feature
    group, as against session set-up, object storage, pandas and printing. *)
Definition feature_store_call (e : event) : bool :=
  match e with
  | Called (FeatureGroup _) _
  | Called (load_feature_definitions _ _) _
  | Called (create _ _ _ _ _ _) _
  | Called (ingest _ _ _ _) _
  | Called (get_record _ _) _
  | Described _ _ => true
  | _ => false
  end.

(** The steps the notebook is there for. *)
Inductive milestone := Fetch | Read | Parse | Create | Poll | Ingest | Retrieve | ShowRecord.

Definition milestone_of (e : event) : option milestone :=
  match e with
  | Called (get_object _ _) _ => Some Fetch
  | Called Body_read _ => Some Read
  | Called (read_csv _) _ => Some Parse
  | Called (create _ _ _ _ _ _) _ => Some Create
  | Described _ _ => Some Poll
  | Called (ingest _ _ _ _) _ => Some Ingest
  | Called (get_record _ _) _ => Some Retrieve
  | Displayed (OutRecord _) => Some ShowRecord
  | _ => None
  end.

(** The milestones of a run that goes all the way, with [k] polls. *)
Definition story (k : nat) : list milestone :=
  [Fetch; Read; Parse; Create] ++ replicate k Poll ++ [Ingest; Retrieve; ShowRecord].

Definition is_ingest (e : event) : bool :=
  match e with
  | Called (ingest _ _ _ _) _ => true
  | _ => false
  end.

(** A poll that read "Created". *)
Definition read_created (e : event) : bool :=
  match e with
  | Described _ (Ok d) => bool_decide (d !! "FeatureGroupStatus" = Some "Created")
  | _ => false
  end.

(** The exception a library call ended with, if it did. *)
Definition failure_of (e : event) : option lib_exn :=
  match e with
  | Called _ (Fail x) => Some x
  | Described _ (Fail x) => Some x
  | _ => None
  end.

(** What the polling adds to a run, other than a failed [describe()]. *)
Definition calm_poll (e : event) : bool :=
  match e with
  | Described _ (Ok _) | Printed _ | Slept _ => true
  | _ => false
  end.

(** No library failure is swallowed: the first call that fails is the
    last event, and its exception is how the run ends. *)
Fixpoint unhandled {A : Type} (out : outcome A) (tr : list event) : Prop :=
  match tr with
  | [] => True
  | e :: tr =>
      match failure_of e with
      | Some x => tr = [] ∧ out = Raised (Propagated x)
      | None => unhandled out tr
      end
  end.

(** Every [q] event has a [p] event somewhere before it. *)
Fixpoint guarded (p q : event → bool) (tr : list event) : bool :=
  match tr with
  | [] => true
  | e :: tr => if q e then false else if p e then true else guarded p q tr
  end.

(** [post m n Φ]: run from [n] describes, [m] ends in a way, with events
    and a count, that [Φ] holds of. *)
Definition post {A : Type} (m : M A) (n : nat)
    (Φ : outcome A → list event → nat → Prop) : Prop :=
  Φ (m n).1.1 (m n).1.2 (m n).2.

(** Every column has as many cells as the frame has rows. *)
Definition aligned (df : DataFrame) : Prop :=
  Forall (λ c, size c.2 = nrows df) (columns df).


Definition sleep_of (e : event) : option Z :=
  match e with
  | Slept seconds => Some seconds
  | _ => None
  end.

(** What the polling leaves in a run when [describe()] is answered
    [answers], one after the other: between two answers, the line printed
    and the sleep of five seconds. *)
Fixpoint waiting_trace (feature_group : string)
    (answers : list (lib_result (gmap string string))) : list event :=
  match answers with
  | [] => []
  | [r] => [Described feature_group r]
  | r :: answers =>
      Described feature_group r
      :: Printed "Waiting for Feature Group Creation"
      :: Slept 5
      :: waiting_trace feature_group answers
  end.

(** The frames handed to the SDK. *)
Definition handed_frame (e : event) : option DataFrame :=
  match e with
  | Called (load_feature_definitions _ df) _ => Some df
  | Called (ingest _ df _ _) _ => Some df
  | _ => None
  end.

(** The object fetched: bucket and key. *)
Definition fetch_of (e : event) : option (string * string) :=
  match e with
  | Called (get_object bucket key) _ => Some (bucket, key)
  | _ => None
  end.

(** The clients made: service and region. *)
Definition client_of (e : event) : option (string * option string) :=
  match e with
  | Called (boto_session_client service region) _ => Some (service, region)
  | Called (boto3_client service region) _ => Some (service, region)
  | _ => None
  end.


(** ** What the model says a cast column looks like *)

(** An object column becomes the string column of its cells' texts; any
    other column stays. *)
Definition cast_column (c : string * series) : string * series :=
  match c.2 with
  | ObjectSeries cells => (c.1, StringSeries ((λ o, Some (str o)) <$> cells))
  | _ => c
  end.

End Notebook.

Arguments Ok {A} a.
Arguments Fail {A} e.
Arguments Returned {A} a.
Arguments Raised {A} e.
Arguments Polling {A}.

(** ** A sample run

    A small world to run the notebook in: doubles that are whole numbers
    or NaN, two rows numbered from 0 and shaped like the ones the saved
    notebook shows ([time], [amount], [class], an [event_time] of
    timestamps as text, [record_id]), and a feature group that reads
    "Creating" three times and then "Created", as in the saved output. *)
Definition whole_floats : Float64 := {|
  float64 := option Z;
  float_str x := match x with Some z => pretty z +:+ ".0" | None => "nan" end;
  float_isnan x := match x with Some _ => false | None => true end;
  float_of_int z := Some z;
  float_nan := None;
  round x := default 0%Z x
|}.

Section Sample.
#[local] Existing Instance whole_floats.

Definition sample_frame : DataFrame :=
  frame (RangeIndex 2)
    [("time", Float64Series [Some 0%Z; Some 0%Z]);
     ("amount", Float64Series [Some 149%Z; Some 2%Z]);
     ("class", Int64Series [0%Z; 0%Z]);
     ("event_time", ObjectSeries [PyStr "2021-08-24 03:42:37.420039";
                                  PyStr "2021-08-24 03:42:37.420039"]);
     ("record_id", Int64Series [1%Z; 2%Z])].

Definition sample_respond (A : Type) (c : call A) : lib_result A :=
  match c in call A return lib_result A with
  | boto3_Session _ => Ok ()
  | region_name => Ok (Some "ap-southeast-1")
  | boto_session_client _ _ => Ok ()
  | Session => Ok ()
  | default_bucket => Ok "sagemaker-ap-southeast-1"
  | get_execution_role => Ok "arn:aws:iam::role/ExecutionRole"
  | boto3_client _ _ => Ok ()
  | get_object _ _ => Ok ()
  | Body_read => Ok []
  | read_csv _ => Ok sample_frame
  | FeatureGroup _ => Ok ()
  | time_time => Ok (Some 1629784970%Z)
  | load_feature_definitions _ _ => Ok ()
  | create _ _ _ _ _ _ => Ok ()
  | ingest _ _ _ _ => Ok ()
  | get_record _ _ => Ok [("time", "68.0"); ("record_id", "100")]
  | store _ _ => Ok ()
  end.

Definition sample_world : World := {|
  respond := sample_respond;
  describe_nth n :=
    Ok {[ "FeatureGroupStatus" := if decide (n < 3) then "Creating" else "Created" ]}
|}.

(** A world whose first [describe()] is refused. *)
Definition throttled_world : World := {|
  respond := sample_respond;
  describe_nth n :=
    match n with
    | 0 => Fail (LibExn "ClientError" "ThrottlingException")
    | S _ => Ok {[ "FeatureGroupStatus" := "Creating" ]}
    end
|}.

(** A world whose feature group does not come up. *)
Definition failing_world : World := {|
  respond := sample_respond;
  describe_nth _ := Ok {[ "FeatureGroupStatus" := "CreateFailed" ]}
|}.

Definition fd_feature_group : feature_group_object := {| name := fd_feature_group_name |}.

(** A frame read from a file whose rows have a field more than the
    header: the first field, here a card number or a name, labels the row. *)
Definition keyed_frame : DataFrame :=
  frame [IntLabel 4111; IntLabel 0; TextLabel "acme"]
    [("amount", Float64Series [Some 149%Z; Some 2%Z; Some 7%Z])].

(** A frame in which a label comes twice. *)
Definition repeated_frame : DataFrame :=
  frame (RangeIndex 1)
    [("merchant", ObjectSeries [PyStr "acme"]);
     ("amount", Float64Series [Some 149%Z]);
     ("note", ObjectSeries [PyNone]);
     ("amount", Int64Series [2%Z])].


End Sample.

(** * Properties *)

Section Properties.
Context {F64 : Float64}.

(** ** Columns and labels *)

Lemma astype_str_string cells :
  astype_string (astype_str (ObjectSeries cells))
  = StringSeries ((λ o, Some (str o)) <$> cells).
Proof.
  unfold astype_string, astype_str; simpl.
  by rewrite <- list_fmap_compose.
Qed.

Lemma labelled_single label df c c' :
  labelled label df = [c] → c' ∈ columns df → c'.1 = label → c' = c.
Proof.
  intros Hone Hin Hl.
  assert (c' ∈ labelled label df) as Hc'.
  { unfold labelled. apply list_elem_of_filter. done. }
  rewrite Hone in Hc'. by apply list_elem_of_singleton in Hc'.
Qed.

Lemma labelled_single_elem label df c :
  labelled label df = [c] → c ∈ columns df ∧ c.1 = label.
Proof.
  intros Hone.
  assert (c ∈ labelled label df) as Hc by (rewrite Hone; apply list_elem_of_here).
  unfold labelled in Hc. apply list_elem_of_filter in Hc. tauto.
Qed.

Lemma dtype_is_object_inv df label b :
  dtype_is df label "object" = Ok b →
  ∃ c, labelled label df = [c] ∧ b = bool_decide (dtype_of c.2 = DObject).
Proof.
  unfold dtype_is. destruct (labelled label df) as [|c [|c' l]]; try done.
  intros [= <-]. exists c. split; [done|].
  by destruct (dtype_of c.2).
Qed.

Lemma getitem_single df label c : labelled label df = [c] → getitem df label = Ok c.2.
Proof. unfold getitem. by intros ->. Qed.

Lemma setitem_present df label s :
  label ∈ labels df →
  setitem df label s
  = frame (index df)
      ((λ c, if bool_decide (c.1 = label) then (label, s) else c) <$> columns df).
Proof. intros Hin. unfold setitem. by rewrite bool_decide_eq_true_2. Qed.

Lemma setitem_absent df label s :
  label ∉ labels df →
  setitem df label s = frame (index df) (columns df ++ [(label, s)]).
Proof. intros Hin. unfold setitem. by rewrite bool_decide_eq_false_2. Qed.

Lemma label_of_column df c : c ∈ columns df → c.1 ∈ labels df.
Proof. intros Hin. unfold labels. apply list_elem_of_fmap. by exists c. Qed.

Lemma index_setitem df label s : index (setitem df label s) = index df.
Proof. unfold setitem. by case_bool_decide. Qed.

Lemma nrows_setitem df label s : nrows (setitem df label s) = nrows df.
Proof. unfold nrows. by rewrite index_setitem. Qed.

(** One round of the loop on an object column: the frame it leaves. *)
Lemma cast_step df label c cells :
  labelled label df = [c] → c.2 = ObjectSeries cells →
  setitem df label (astype_string (astype_str c.2))
  = frame (index df)
      ((λ c', if bool_decide (c'.1 = label) then cast_column c' else c') <$> columns df).
Proof.
  intros Hone Hobj.
  destruct (labelled_single_elem _ _ _ Hone) as [Hin Hl].
  rewrite setitem_present by (rewrite <- Hl; by apply label_of_column).
  f_equal. apply list_fmap_ext. intros i c' Hi. case_bool_decide; [|done].
  assert (c' = c) as -> by (eapply labelled_single; eauto using list_elem_of_lookup_2).
  unfold cast_column. rewrite Hobj, astype_str_string. by rewrite Hl.
Qed.

Lemma cast_column_fst c : (cast_column c).1 = c.1.
Proof. unfold cast_column. by destruct c.2. Qed.

Lemma cast_column_idemp c : cast_column (cast_column c) = cast_column c.
Proof. destruct c as [l []]; done. Qed.

Lemma cast_column_other c : dtype_of c.2 ≠ DObject → cast_column c = c.
Proof. destruct c as [l []]; done. Qed.

(** When the loop returns, it has cast exactly the columns it was asked
    to look at. *)
Lemma cast_loop_ok todo : ∀ df df',
  cast_loop todo df = (Ok tt, df') →
  index df' = index df ∧
  columns df' = (λ c, if bool_decide (c.1 ∈ todo) then cast_column c else c) <$> columns df.
Proof.
  induction todo as [|label todo IH]; intros df df'; simpl.
  - intros [= <-]. split; [done|].
    rewrite <- (list_fmap_id (columns df)) at 1.
    apply list_fmap_ext. by intros i c _.
  - destruct (dtype_is df label "object") as [b|e] eqn:Hd; [|done].
    apply dtype_is_object_inv in Hd as (c & Hone & ->).
    case_bool_decide as Hobj.
    + rewrite (getitem_single _ _ _ Hone).
      destruct c.2 as [cells| | | |] eqn:Hc2; try done.
      rewrite <- Hc2, (cast_step _ _ _ cells Hone Hc2).
      intros Hloop. apply IH in Hloop as [Hn Hcols]. simpl in *.
      split; [done|]. rewrite Hcols, <- list_fmap_compose.
      apply list_fmap_ext. intros i c' Hi. simpl.
      destruct (decide (c'.1 = label)) as [Heq|Hne].
      * rewrite (bool_decide_eq_true_2 (c'.1 = label)) by done.
        rewrite cast_column_fst.
        rewrite (bool_decide_eq_true_2 (c'.1 ∈ label :: todo)) by (rewrite Heq; left).
        case_bool_decide; [apply cast_column_idemp|done].
      * rewrite (bool_decide_eq_false_2 (c'.1 = label)) by done.
        rewrite (bool_decide_ext (c'.1 ∈ label :: todo) (c'.1 ∈ todo)); [done|].
        rewrite elem_of_cons. tauto.
    + intros Hloop. apply IH in Hloop as [Hn Hcols].
      split; [done|]. rewrite Hcols.
      apply list_fmap_ext. intros i c' Hi.
      destruct (decide (c'.1 = label)) as [Heq|Hne].
      * assert (c' = c) as -> by (eapply labelled_single; eauto using list_elem_of_lookup_2).
        rewrite (cast_column_other c) by done.
        by repeat case_bool_decide.
      * rewrite (bool_decide_ext (c'.1 ∈ label :: todo) (c'.1 ∈ todo)); [done|].
        rewrite elem_of_cons. tauto.
Qed.

(** However the loop ends, a column that is not an object column is where
    and what it was. *)
Lemma cast_loop_frame todo : ∀ df i c,
  columns df !! i = Some c → dtype_of c.2 ≠ DObject →
  columns (cast_loop todo df).2 !! i = Some c.
Proof.
  induction todo as [|label todo IH]; intros df i c Hi Hne; simpl; [done|].
  destruct (dtype_is df label "object") as [b|e] eqn:Hd; [|done].
  apply dtype_is_object_inv in Hd as (c0 & Hone & ->).
  case_bool_decide as Hobj; [|by apply IH].
  rewrite (getitem_single _ _ _ Hone).
  destruct c0.2 as [cells| | | |] eqn:Hc2; try done.
  rewrite <- Hc2, (cast_step _ _ _ cells Hone Hc2).
  apply IH; [|done]. simpl. rewrite list_lookup_fmap, Hi. simpl. f_equal.
  case_bool_decide as Hl; [|done].
  assert (c = c0) as -> by (eapply labelled_single; eauto using list_elem_of_lookup_2).
  by rewrite Hc2 in Hne.
Qed.

Lemma cast_loop_index todo : ∀ df, index (cast_loop todo df).2 = index df.
Proof.
  induction todo as [|label todo IH]; intros df; simpl; [done|].
  destruct (dtype_is df label "object") as [[]|e]; [|by apply IH|done].
  destruct (getitem df label); [|done].
  by rewrite IH, index_setitem.
Qed.

Lemma cast_loop_nrows todo : ∀ df, nrows (cast_loop todo df).2 = nrows df.
Proof. intros df. unfold nrows. by rewrite cast_loop_index. Qed.


(** ** The polling loop *)

Section Polling.
Variable w : World.
Variable feature_group : feature_group_object.


(** The four ways one poll can go. *)
Lemma polls_failed fuel n e :
  describe_nth w n = Fail e →
  polls w fuel feature_group n
  = (Raised (Propagated e), [Described (name feature_group) (Fail e)], S n).
Proof. intros Hd. unfold polls, mbind, M_bind, describe. by rewrite Hd. Qed.

Lemma polls_settled fuel n d :
  describe_nth w n = Ok d → d !! "FeatureGroupStatus" ≠ Some "Creating" →
  polls w fuel feature_group n
  = (Returned (d !! "FeatureGroupStatus"), [Described (name feature_group) (Ok d)], S n).
Proof.
  intros Hd Hs. unfold polls, mbind, M_bind, describe. rewrite Hd. simpl.
  destruct fuel; simpl; by rewrite bool_decide_eq_false_2.
Qed.

Lemma polls_out_of_fuel n d :
  describe_nth w n = Ok d → d !! "FeatureGroupStatus" = Some "Creating" →
  polls w 0 feature_group n
  = (Polling, [Described (name feature_group) (Ok d)], S n).
Proof.
  intros Hd Hs. unfold polls, mbind, M_bind, describe. rewrite Hd. simpl.
  by rewrite bool_decide_eq_true_2.
Qed.

Lemma polls_again fuel n d :
  describe_nth w n = Ok d → d !! "FeatureGroupStatus" = Some "Creating" →
  polls w (S fuel) feature_group n
  = let '(out, evs, n') := polls w fuel feature_group (S n) in
    (out, Described (name feature_group) (Ok d) :: [Printed "Waiting for Feature Group Creation"; Slept 5] ++ evs, n').
Proof.
  intros Hd Hs. unfold polls, mbind, M_bind, describe. rewrite Hd. simpl.
  rewrite bool_decide_eq_true_2 by done.
  unfold mbind, M_bind, describe. simpl.
  destruct (describe_nth w (S n)) as [d'|e]; simpl; [|done].
  by destruct (while_creating w fuel feature_group (d' !! "FeatureGroupStatus") (S (S n)))
    as [[[] ?] ?].
Qed.

(** The function is its polling followed by its check. *)
Lemma wait_polls fuel n :
  wait_for_feature_group_creation_complete w fuel feature_group n
  = match polls w fuel feature_group n with
    | (Returned status, evs, n') =>
        if bool_decide (status ≠ Some "Created")
        then (Raised (RuntimeError ("Failed to create feature group " +:+ name feature_group)),
              evs, n')
        else (Returned (),
              evs ++ [Printed ("FeatureGroup " +:+ name feature_group
                               +:+ " successfully created.")], n')
    | (Raised e, evs, n') => (Raised e, evs, n')
    | (Polling, evs, n') => (Polling, evs, n')
    end.
Proof.
  unfold wait_for_feature_group_creation_complete, polls, mbind, M_bind.
  destruct (describe w feature_group n) as [[[d| |] evs] n']; [|done..].
  destruct (while_creating w fuel feature_group (d !! "FeatureGroupStatus") n')
    as [[[status| |] evs'] n'']; [|done..].
  case_bool_decide; simpl; [by rewrite app_nil_r|by rewrite app_assoc].
Qed.

Lemma polled_Ok n status :
  polled w n = Ok status →
  ∃ d, describe_nth w n = Ok d ∧ d !! "FeatureGroupStatus" = status.
Proof. unfold polled. destruct (describe_nth w n); naive_solver. Qed.

Lemma settles_S n k status : settles w n (S k) status → settles w (S n) k status.
Proof.
  intros (Hc & Hk & Hs). split; [|split; [|done]].
  - intros j Hj. replace (S n + j) with (n + S j) by lia. apply Hc. lia.
  - by replace (S n + k) with (n + S k) by lia.
Qed.

Lemma polls_settles k : ∀ fuel n status,
  settles w n k status → k ≤ fuel →
  ∃ evs, polls w fuel feature_group n = (Returned status, evs, S (n + k)).
Proof.
  induction k as [|k IH]; intros fuel n status Hset Hfuel.
  - destruct Hset as (_ & Hk & Hs). rewrite Nat.add_0_r in *.
    apply polled_Ok in Hk as (d & Hd & <-).
    eexists. by apply polls_settled.
  - destruct fuel as [|fuel]; [lia|].
    pose proof Hset as (Hc & _ & _).
    specialize (Hc 0 ltac:(lia)). rewrite Nat.add_0_r in Hc.
    apply polled_Ok in Hc as (d & Hd & Hst).
    rewrite (polls_again _ _ _ Hd Hst).
    destruct (IH fuel (S n) status (settles_S _ _ _ Hset) ltac:(lia)) as [evs ->].
    eexists. f_equal. lia.
Qed.

(** With every poll reading "Creating" no fuel is enough. *)
Lemma polls_forever fuel : ∀ n,
  (∀ j, polled w (n + j) = Ok (Some "Creating")) →
  (polls w fuel feature_group n).1.1 = Polling.
Proof.
  induction fuel as [|fuel IH]; intros n Hall.
  - pose proof (Hall 0) as H0. rewrite Nat.add_0_r in H0.
    apply polled_Ok in H0 as (d & Hd & Hst).
    by rewrite (polls_out_of_fuel _ _ Hd Hst).
  - pose proof (Hall 0) as H0. rewrite Nat.add_0_r in H0.
    apply polled_Ok in H0 as (d & Hd & Hst).
    rewrite (polls_again _ _ _ Hd Hst).
    specialize (IH (S n)).
    destruct (polls w fuel feature_group (S n)) as [[out evs] n']. simpl in *.
    apply IH. intros j. rewrite <- Nat.add_succ_r. apply Hall.
Qed.

Lemma polled_creating_dec n : {polled w n = Ok (Some "Creating")} + {polled w n ≠ Ok (Some "Creating")}.
Proof.
  unfold polled. destruct (describe_nth w n) as [d|e]; [|by right].
  destruct (decide (d !! "FeatureGroupStatus" = Some "Creating")) as [->|Hne]; [by left|].
  right. congruence.
Qed.

Lemma polls_end_now fuel n :
  polled w n ≠ Ok (Some "Creating") → (polls w fuel feature_group n).1.1 ≠ Polling.
Proof.
  unfold polled. intros Hn.
  destruct (describe_nth w n) as [d|e] eqn:Hd.
  - rewrite (polls_settled _ _ _ Hd) by congruence. done.
  - by rewrite (polls_failed _ _ _ Hd).
Qed.

Lemma polls_end_of_polling k : ∀ n,
  polled w (n + k) ≠ Ok (Some "Creating") →
  ∃ fuel, (polls w fuel feature_group n).1.1 ≠ Polling.
Proof.
  induction k as [|k IH]; intros n Hk.
  - rewrite Nat.add_0_r in Hk. exists 0. by apply polls_end_now.
  - destruct (polled_creating_dec n) as [Hc|Hc].
    + apply polled_Ok in Hc as (d & Hd & Hst).
      destruct (IH (S n)) as [fuel Hfuel].
      { by replace (S n + k) with (n + S k) by lia. }
      exists (S fuel). rewrite (polls_again _ _ _ Hd Hst).
      by destruct (polls w fuel feature_group (S n)) as [[out evs] n'].
    + exists 0. by apply polls_end_now.
Qed.

Lemma polls_polling_end fuel : ∀ n,
  (polls w fuel feature_group n).1.1 ≠ Polling →
  ∃ k, polled w (n + k) ≠ Ok (Some "Creating").
Proof.
  induction fuel as [|fuel IH]; intros n Hend.
  - exists 0. rewrite Nat.add_0_r. intros Hc.
    apply polled_Ok in Hc as (d & Hd & Hst).
    by rewrite (polls_out_of_fuel _ _ Hd Hst) in Hend.
  - destruct (polled_creating_dec n) as [Hc|Hc].
    + apply polled_Ok in Hc as (d & Hd & Hst).
      rewrite (polls_again _ _ _ Hd Hst) in Hend.
      destruct (IH (S n)) as [k Hk].
      { by destruct (polls w fuel feature_group (S n)) as [[out evs] n']. }
      exists (S k). by replace (n + S k) with (S n + k) by lia.
    + exists 0. by rewrite Nat.add_0_r.
Qed.

Lemma wait_outcome_polling fuel n :
  (wait_for_feature_group_creation_complete w fuel feature_group n).1.1 = Polling
  ↔ (polls w fuel feature_group n).1.1 = Polling.
Proof.
  rewrite wait_polls.
  destruct (polls w fuel feature_group n) as [[[status| |] evs] n']; simpl; [|done..].
  by case_bool_decide.
Qed.

End Polling.


(** What the polling leaves in the run: calm events and, last, the
    [describe()] that ended it. *)
Lemma polls_events w feature_group fuel : ∀ n,
  ∃ pre r,
    (polls w fuel feature_group n).1.2 = pre ++ [Described (name feature_group) r] ∧
    Forall (λ e, calm_poll e = true) pre ∧
    match (polls w fuel feature_group n).1.1 with
    | Returned status =>
        ∃ d, r = Ok d ∧ d !! "FeatureGroupStatus" = status ∧ status ≠ Some "Creating"
    | Raised e => ∃ x, r = Fail x ∧ e = Propagated x
    | Polling => ∃ d, r = Ok d ∧ d !! "FeatureGroupStatus" = Some "Creating"
    end.
Proof.
  induction fuel as [|fuel IH]; intros n.
  - destruct (describe_nth w n) as [d|x] eqn:Hd.
    + destruct (decide (d !! "FeatureGroupStatus" = Some "Creating")) as [Hst|Hst].
      * rewrite (polls_out_of_fuel _ _ _ _ Hd Hst). exists [], (Ok d). simpl. split_and!; eauto.
      * rewrite (polls_settled _ _ _ _ _ Hd Hst). exists [], (Ok d). simpl. split_and!; eauto.
    + rewrite (polls_failed _ _ _ _ _ Hd). exists [], (Fail x). simpl. split_and!; eauto.
  - destruct (describe_nth w n) as [d|x] eqn:Hd.
    + destruct (decide (d !! "FeatureGroupStatus" = Some "Creating")) as [Hst|Hst].
      * rewrite (polls_again _ _ _ _ _ Hd Hst).
        destruct (IH (S n)) as (pre & r & Hevs & Hcalm & Hout).
        destruct (polls w fuel feature_group (S n)) as [[out evs] n']. simpl in *.
        exists (Described (name feature_group) (Ok d)
                :: Printed "Waiting for Feature Group Creation" :: Slept 5 :: pre), r.
        rewrite Hevs. split; [done|]. split; [|done].
        by repeat apply Forall_cons_2.
      * rewrite (polls_settled _ _ _ _ _ Hd Hst). exists [], (Ok d). simpl. split_and!; eauto.
    + rewrite (polls_failed _ _ _ _ _ Hd). exists [], (Fail x). simpl. split_and!; eauto.
Qed.

Lemma wait_events w feature_group fuel n :
  let '(out, evs, _) := wait_for_feature_group_creation_complete w fuel feature_group n in
  match out with
  | Returned _ =>
      Forall (λ e, calm_poll e = true) evs ∧ Exists (λ e, read_created e = true) evs
  | Raised (RuntimeError msg) =>
      msg = "Failed to create feature group " +:+ name feature_group ∧
      ∃ pre d, evs = pre ++ [Described (name feature_group) (Ok d)] ∧
               Forall (λ e, calm_poll e = true) pre ∧
               d !! "FeatureGroupStatus" ≠ Some "Created" ∧
               d !! "FeatureGroupStatus" ≠ Some "Creating"
  | Raised (Propagated x) =>
      ∃ pre, evs = pre ++ [Described (name feature_group) (Fail x)] ∧
             Forall (λ e, calm_poll e = true) pre
  | Polling => Forall (λ e, calm_poll e = true) evs
  end.
Proof.
  rewrite wait_polls.
  destruct (polls_events w feature_group fuel n) as (pre & r & Hevs & Hcalm & Hout).
  destruct (polls w fuel feature_group n) as [[[status|e|] evs] n']; simpl in *; subst evs.
  - destruct Hout as (d & -> & <- & Hne). case_bool_decide as Hst.
    + split; [done|]. by exists pre, d.
    + split.
      * rewrite <- app_assoc. apply Forall_app. split; [done|].
        by repeat apply Forall_cons_2.
      * apply Exists_app. left. apply Exists_app. right. apply Exists_cons_hd.
        simpl. by apply bool_decide_eq_true_2.
  - destruct Hout as (x & -> & ->). by exists pre.
  - destruct Hout as (d & -> & _). apply Forall_app. split; [done|].
    by repeat apply Forall_cons_2.
Qed.

(** ** Running the cells *)

Lemma guarded_sound p q tr :
  guarded p q tr = true →
  ∀ pre e post, tr = pre ++ e :: post → q e = true → Exists (λ e, p e = true) pre.
Proof.
  induction tr as [|e0 tr IH]; intros Hg pre e post Heq Hq.
  - by destruct pre.
  - simpl in Hg. destruct pre as [|e1 pre]; simplify_eq/=.
    + by rewrite Hq in Hg.
    + destruct (q e1); [done|]. destruct (p e1) eqn:Hp.
      * by apply Exists_cons_hd.
      * apply Exists_cons_tl. by eapply IH.
Qed.

Lemma guarded_app_seen p q tr tr' :
  Forall (λ e, q e = false) tr → Exists (λ e, p e = true) tr →
  guarded p q (tr ++ tr') = true.
Proof.
  induction tr as [|e tr IH]; intros Hq Hp.
  - by apply Exists_nil in Hp.
  - apply Forall_cons in Hq as [Hq0 Hq]. simpl. rewrite Hq0.
    destruct (p e) eqn:Hpe; [done|].
    apply Exists_cons in Hp as [Hp|Hp]; [congruence|]. by apply IH.
Qed.

Lemma guarded_app_calm p q tr tr' :
  Forall (λ e, q e = false) tr → guarded p q tr' = true →
  guarded p q (tr ++ tr') = true.
Proof.
  induction tr as [|e tr IH]; intros Hq Hg; [done|].
  apply Forall_cons in Hq as [Hq0 Hq]. simpl. rewrite Hq0.
  destruct (p e); [done|]. by apply IH.
Qed.

Lemma omap_calm {B} (f : event → option B) tr :
  Forall (λ e, f e = None) tr → omap f tr = [].
Proof.
  induction 1 as [|e tr He _ IH]; [done|]. simpl. by rewrite He.
Qed.

Lemma calm_polls (P : event → Prop) tr :
  (∀ e, calm_poll e = true → P e) →
  Forall (λ e, calm_poll e = true) tr → Forall P tr.
Proof. intros HP Hc. by eapply Forall_impl. Qed.


(** One rule per kind of step: what is left to show for the rest of the
    cells, with the step's event put in front of theirs. *)
Section Steps.
Variable w : World.
Context {A B : Type}.
Implicit Types (k : A → M B) (Φ : outcome B → list event → nat → Prop).

Lemma post_bind (m : M A) k n Φ :
  post m n (λ out evs n',
    match out with
    | Returned a => post (k a) n' (λ out' evs' n'', Φ out' (evs ++ evs') n'')
    | Raised e => Φ (Raised e) evs n'
    | Polling => Φ Polling evs n'
    end) →
  post (m ≫= k) n Φ.
Proof.
  unfold post, mbind, M_bind.
  destruct (m n) as [[[a|e|] evs] n']; simpl; [|done..].
  by destruct (k a n') as [[out' evs'] n''].
Qed.

Lemma post_call (c : call A) k n Φ :
  (∀ x, respond w A c = Fail x → Φ (Raised (Propagated x)) [Called c (Fail x)] n) →
  (∀ a, respond w A c = Ok a →
        post (k a) n (λ out evs n', Φ out (Called c (Ok a) :: evs) n')) →
  post (lib w c ≫= k) n Φ.
Proof.
  intros Hfail Hok. apply post_bind. unfold post at 1, lib. simpl.
  destruct (respond w A c) as [a|x]; simpl; [by apply Hok|by apply Hfail].
Qed.

Lemma post_pandas (r : lib_result A) k n Φ :
  (∀ x, r = Fail x → Φ (Raised (Propagated x)) [] n) →
  (∀ a, r = Ok a → post (k a) n Φ) →
  post (pandas r ≫= k) n Φ.
Proof.
  intros Hfail Hok. apply post_bind. unfold post at 1, pandas. simpl.
  destruct r as [a|x]; simpl; [by apply Hok|by apply Hfail].
Qed.

End Steps.

Section MoreSteps.
Variable w : World.
Context {B : Type}.
Implicit Types (Φ : outcome B → list event → nat → Prop).

Lemma post_emit e (k : () → M B) n Φ :
  post (k ()) n (λ out evs n', Φ out (e :: evs) n') → post (emit e ≫= k) n Φ.
Proof. intros Hk. by apply post_bind. Qed.

Lemma post_describe feature_group (k : gmap string string → M B) n Φ :
  (∀ x, describe_nth w n = Fail x →
        Φ (Raised (Propagated x)) [Described (name feature_group) (Fail x)] (S n)) →
  (∀ d, describe_nth w n = Ok d →
        post (k d) (S n) (λ out evs n', Φ out (Described (name feature_group) (Ok d) :: evs) n')) →
  post (describe w feature_group ≫= k) n Φ.
Proof.
  intros Hfail Hok. apply post_bind. unfold post at 1, describe. simpl.
  destruct (describe_nth w n) as [d|x]; simpl; [by apply Hok|by apply Hfail].
Qed.

Lemma post_wait fuel feature_group (k : () → M B) n Φ :
  (∀ evs n',
     Forall (λ e, calm_poll e = true) evs → Exists (λ e, read_created e = true) evs →
     post (k ()) n' (λ out' evs' n'', Φ out' (evs ++ evs') n'')) →
  (∀ pre d n',
     Forall (λ e, calm_poll e = true) pre →
     d !! "FeatureGroupStatus" ≠ Some "Created" →
     d !! "FeatureGroupStatus" ≠ Some "Creating" →
     Φ (Raised (RuntimeError ("Failed to create feature group " +:+ name feature_group)))
       (pre ++ [Described (name feature_group) (Ok d)]) n') →
  (∀ pre x n',
     Forall (λ e, calm_poll e = true) pre →
     Φ (Raised (Propagated x)) (pre ++ [Described (name feature_group) (Fail x)]) n') →
  (∀ evs n', Forall (λ e, calm_poll e = true) evs → Φ Polling evs n') →
  post (wait_for_feature_group_creation_complete w fuel feature_group ≫= k) n Φ.
Proof.
  intros Hret Herr Hfail Hpoll. apply post_bind. unfold post at 1.
  pose proof (wait_events w feature_group fuel n) as Hev.
  destruct (wait_for_feature_group_creation_complete w fuel feature_group n)
    as [[[[]|[msg|x]|] evs] n']; simpl.
  - destruct Hev as [Hcalm Hcreated]. by apply Hret.
  - destruct Hev as (-> & pre & d & -> & Hcalm & Hne & Hne'). by apply Herr.
  - destruct Hev as (pre & -> & Hcalm). by apply Hfail.
  - by apply Hpoll.
Qed.

Lemma post_last_call {A} (c : call A) n (Φ : outcome A → list event → nat → Prop) :
  (∀ r, Φ (of_result r) [Called c r] n) → post (lib w c) n Φ.
Proof. intros H. apply H. Qed.

End MoreSteps.

#[local] Arguments wait_for_feature_group_creation_complete : simpl never.
#[local] Arguments cast_object_to_string : simpl never.
#[local] Arguments append_event_time : simpl never.
#[local] Arguments head : simpl never.
#[local] Arguments record_identifier_value : simpl never.
#[local] Arguments String.append : simpl never.

Ltac cell_step :=
  cbv beta zeta;
  lazymatch goal with
  | |- post (lib _ _ ≫= _) _ _ =>
      apply post_call; [intros ? ?|intros ? ?]
  | |- post (print _ ≫= _) _ _ => apply post_emit
  | |- post (display _ ≫= _) _ _ => apply post_emit
  | |- post (describe _ _ ≫= _) _ _ =>
      apply post_describe; [intros ? ?|intros ? ?]
  | |- post (pandas _ ≫= _) _ _ =>
      apply post_pandas; [intros ? ?|intros ? ?]
  | |- post (wait_for_feature_group_creation_complete _ _ _ ≫= _) _ _ =>
      let polls := fresh "polls" in
      let Hcalm := fresh "Hcalm" in
      apply post_wait;
      [intros polls ? Hcalm ?|intros polls ? ? Hcalm ? ?
      |intros polls ? ? Hcalm|intros polls ? Hcalm]
  | |- post (let '(_, _) := cast_object_to_string ?df in _) _ _ =>
      destruct (cast_object_to_string df) eqn:?
  | |- post (lib _ _) _ _ => apply post_last_call; intros [|]
  end.

(** Every run of the notebook: one goal per place where it can end. *)
Ltac run_cells Φ :=
  lazymatch goal with
  | |- context [run ?w ?fuel] =>
      change (post (notebook w fuel) 0 (λ out evs _, Φ out evs));
      unfold notebook; repeat cell_step; cbv beta
  end.



(** ** cast_object_to_string *)

Lemma labelled_distinct (l : list (string * series)) label :
  NoDup l.*1 → label ∈ l.*1 → ∃ c, filter (λ c, c.1 = label) l = [c].
Proof.
  induction l as [|c l IH]; intros Hnd Hin; [by apply elem_of_nil in Hin|].
  rewrite fmap_cons in Hnd, Hin. apply NoDup_cons in Hnd as [Hc Hnd].
  rewrite filter_cons. case_decide as Hl.
  - exists c. f_equal. destruct (filter (λ c, c.1 = label) l) as [|c' l'] eqn:Hf; [done|].
    assert (c' ∈ filter (λ c, c.1 = label) l) as Hc' by (rewrite Hf; left).
    apply list_elem_of_filter in Hc' as [Hl' Hc'].
    destruct Hc. rewrite Hl, <- Hl'. apply list_elem_of_fmap. by exists c'.
  - apply IH; [done|]. apply elem_of_cons in Hin as [Hin|Hin]; [congruence|done].
Qed.

Lemma labels_setitem df label s : label ∈ labels df → labels (setitem df label s) = labels df.
Proof.
  intros Hin. rewrite setitem_present by done. unfold labels. simpl.
  rewrite <- list_fmap_compose. apply list_fmap_ext. intros i c _. simpl.
  by case_bool_decide.
Qed.

Lemma cast_loop_returns todo : ∀ df,
  NoDup (labels df) → todo ⊆ labels df → (cast_loop todo df).1 = Ok ().
Proof.
  induction todo as [|label todo IH]; intros df Hnd Hsub; simpl; [done|].
  assert (label ∈ labels df) as Hin by (apply Hsub; left).
  assert (todo ⊆ labels df) as Hsub' by (intros l Hl; apply Hsub; by right).
  destruct (labelled_distinct _ _ Hnd Hin) as [c Hone].
  unfold dtype_is, getitem, labelled. rewrite Hone.
  case_bool_decide; [|by apply IH].
  apply IH; by rewrite labels_setitem.
Qed.

(** With distinct labels, as [read_csv] makes them, the call returns. *)
Lemma cast_object_to_string_returns df :
  NoDup (labels df) → (cast_object_to_string df).1 = Ok ().
Proof. intros Hnd. by apply cast_loop_returns. Qed.

(** C3. For every frame, once [cast_object_to_string] has returned, each
    column that was an object column before the call is, in the same place
    and under the same label, a string column, and its cells are the texts
    that [str] gives for the cells it had. *)
Theorem cast_object_to_string_casts (df df' : DataFrame) :
  cast_object_to_string df = (Ok (), df') →
  ∀ i label s,
    columns df !! i = Some (label, s) → dtype_of s = DObject →
    ∃ s', columns df' !! i = Some (label, s') ∧
          dtype_of s' = DString ∧
          objects s' = (λ o, PyStr (str o)) <$> objects s.
Proof.
  intros Hcast i label s Hi Hobj.
  apply cast_loop_ok in Hcast as [_ Hcols].
  destruct s as [cells| | | |]; try done.
  exists (StringSeries ((λ o, Some (str o)) <$> cells)).
  split; [|split; [done|]].
  - rewrite Hcols, list_lookup_fmap, Hi. simpl.
    rewrite bool_decide_eq_true_2; [done|].
    apply (label_of_column df (label, ObjectSeries cells)).
    by eapply list_elem_of_lookup_2.
  - simpl. by rewrite <- list_fmap_compose.
Qed.

(** C8. For every frame, and however the call ends, [cast_object_to_string]
    leaves each column whose dtype is not object where it was, with the
    dtype and the cells it had; the number of rows does not change. *)
Theorem cast_object_to_string_keeps (df : DataFrame) i label s :
  columns df !! i = Some (label, s) → dtype_of s ≠ DObject →
  columns (cast_object_to_string df).2 !! i = Some (label, s) ∧
  nrows (cast_object_to_string df).2 = nrows df.
Proof.
  intros Hi Hne. split; [by apply cast_loop_frame|apply cast_loop_nrows].
Qed.

(** ** wait_for_feature_group_creation_complete *)

(** C1. When the polls read "Creating" until one reads another status,
    the function raises exactly if that status is not "Created", what it
    raises is its RuntimeError, and with "Created" it returns. *)
Theorem wait_raises_unless_created w feature_group n k status fuel :
  settles w n k status → k ≤ fuel →
  let out := (wait_for_feature_group_creation_complete w fuel feature_group n).1.1 in
  ((∃ e, out = Raised e) ↔ status ≠ Some "Created") ∧
  (∀ e, out = Raised e →
        e = RuntimeError ("Failed to create feature group " +:+ name feature_group)) ∧
  (status = Some "Created" → out = Returned ()).
Proof.
  intros Hset Hfuel.
  destruct (polls_settles w feature_group k fuel n status Hset Hfuel) as [evs Hpolls].
  rewrite wait_polls, Hpolls. case_bool_decide as Hst; simpl.
  - split; [|split]; [split; eauto| congruence | done].
  - split; [|split]; [split; [intros [e ?]|]; done | done | done].
Qed.

(** C10, as the code has it. The call comes to an end exactly if some poll
    reads a status other than "Creating" or some [describe()] raises; and
    with every poll reading "Creating" no amount of fuel brings it to an
    end: the loop has no limit of its own. *)
Theorem wait_terminates_iff w feature_group n :
  (terminates w feature_group n ↔
   ∃ k, (∃ status, polled w (n + k) = Ok status ∧ status ≠ Some "Creating") ∨
        (∃ x, polled w (n + k) = Fail x)) ∧
  ((∀ k, polled w (n + k) = Ok (Some "Creating")) →
   ∀ fuel, (wait_for_feature_group_creation_complete w fuel feature_group n).1.1 = Polling).
Proof.
  split.
  - split.
    + intros [fuel Hend]. rewrite wait_outcome_polling in Hend.
      apply polls_polling_end in Hend as [k Hk]. exists k.
      destruct (polled w (n + k)) as [status|x]; [left|right; by exists x].
      exists status. split; [done|]. congruence.
    + intros [k Hk].
      destruct (polls_end_of_polling w feature_group k n) as [fuel Hend].
      { destruct Hk as [(status & -> & Hne)|[x ->]]; congruence. }
      exists fuel. by rewrite wait_outcome_polling.
  - intros Hall fuel. apply wait_outcome_polling. by apply polls_forever.
Qed.


(** ** The run of the notebook *)

Lemma record_identifier_value_100 : record_identifier_value = "100".
Proof. reflexivity. Qed.

Lemma list_omap_fold {A B} (f : A → option B) l : list_omap A B f l = omap f l.
Proof. done. Qed.

(** The polling adds nothing to a projection that skips polls. *)
Ltac skip_polls :=
  repeat (simpl; rewrite ?list_omap_fold, ?omap_app);
  rewrite ?list_omap_fold;
  repeat match goal with
  | Hcalm : Forall (λ e, calm_poll e = true) ?polls |- context [omap ?f ?polls] =>
      rewrite (omap_calm f polls)
        by (eapply calm_polls; [|exact Hcalm]; by intros [? [] []|? []| | |[]])
  end;
  simpl.

Lemma lookup_steps w fuel :
  let story := omap lookup_step_of (run w fuel).2 in
  story = [] ∨
  story = [GroupCreated fd_feature_group_name] ∨
  story = [GroupCreated fd_feature_group_name; IngestDone;
           Lookup fd_feature_group_name record_identifier_value].
Proof.
  run_cells (λ (out : outcome ()) evs,
    let story := omap lookup_step_of evs in
    story = [] ∨
    story = [GroupCreated fd_feature_group_name] ∨
    story = [GroupCreated fd_feature_group_name; IngestDone;
             Lookup fd_feature_group_name record_identifier_value]).
  all: skip_polls; auto.
Qed.


(** What the notebook hands to [ingest], and the clock reading behind it. *)
Lemma ingest_calls w fuel :
  (omap ingest_of (run w fuel).2 = [] ∧ (run w fuel).1 ≠ Returned ()) ∨
  ∃ body df0 now,
    respond w _ (read_csv body) = Ok df0 ∧
    respond w _ time_time = Ok now ∧
    omap ingest_of (run w fuel).2 = [(fd_feature_group_name, prepared df0 now, 3%Z, true)] ∧
    omap clock_of (run w fuel).2 = [Ok now].
Proof.
  run_cells (λ (out : outcome ()) evs,
    (omap ingest_of evs = [] ∧ out ≠ Returned ()) ∨
    ∃ body df0 now,
      respond w _ (read_csv body) = Ok df0 ∧
      respond w _ time_time = Ok now ∧
      omap ingest_of evs = [(fd_feature_group_name, prepared df0 now, 3%Z, true)] ∧
      omap clock_of evs = [Ok now]).
  all: skip_polls; try (by left).
  all: right; eexists _, _, _; split_and!; [eassumption..| |done].
  all: unfold prepared; by rewrite Heqp.
Qed.

(** C4. A run calls [ingest] at most once, and a run that goes all the
    way exactly once; the call is the feature group's, on the prepared
    frame, with 3 for [max_workers] as written in the cell and with
    [wait=True], so that the cell goes on only when the call has come
    back. Nothing else in the run has to do with workers. *)
Theorem one_ingest_call w fuel :
  length (omap ingest_of (run w fuel).2) ≤ 1 ∧
  ((run w fuel).1 = Returned () → length (omap ingest_of (run w fuel).2) = 1) ∧
  ∀ g df workers wait,
    (g, df, workers, wait) ∈ omap ingest_of (run w fuel).2 →
    g = fd_feature_group_name ∧ workers = 3%Z ∧ wait = true ∧
    ∃ body df0 now,
      respond w _ (read_csv body) = Ok df0 ∧
      respond w _ time_time = Ok now ∧
      df = prepared df0 now.
Proof.
  destruct (ingest_calls w fuel) as [[-> Hout]|(body & df0 & now & Hcsv & Hnow & -> & _)].
  - split; [simpl; lia|]. split; [done|]. intros g df workers wait Hin.
    by apply elem_of_nil in Hin.
  - split; [done|]. split; [done|]. intros g df workers wait Hin.
    apply list_elem_of_singleton in Hin. simplify_eq. eauto 10.
Qed.


(** C2. In a run whose ingest call comes back, the notebook looks up a
    record exactly once, after that, in the feature group it created, the
    one named transactionfeaturegroup001, and for the record identifier
    given as the text "100". *)
Theorem one_lookup_after_ingest w fuel :
  IngestDone ∈ omap lookup_step_of (run w fuel).2 →
  omap lookup_step_of (run w fuel).2
  = [GroupCreated "transactionfeaturegroup001"; IngestDone;
     Lookup "transactionfeaturegroup001" "100"].
Proof.
  destruct (lookup_steps w fuel) as [->| [->| ->]]; [| |done].
  - intros Hin. by apply elem_of_nil in Hin.
  - intros Hin. by apply list_elem_of_singleton in Hin.
Qed.

(** ** The event_time column *)

Lemma elem_of_RangeIndex n label :
  label ∈ RangeIndex n ↔ ∃ j, label = IntLabel (Z.of_nat j) ∧ j < n.
Proof.
  unfold RangeIndex. rewrite list_elem_of_fmap. split.
  - intros (j & -> & Hj). exists j. split; [done|].
    apply elem_of_seq in Hj. lia.
  - intros (j & -> & Hj). exists j. split; [done|]. apply elem_of_seq. lia.
Qed.

(** A Series of [n] cells, all [x], holds [x] at the labels 0..n-1 and
    nothing elsewhere. *)
Lemma loc_replicate n (x : float64) label :
  loc (replicate n x) label
  = if bool_decide (label ∈ RangeIndex n) then Some x else None.
Proof.
  destruct label as [i|t]; simpl.
  - destruct (decide (0 ≤ i)%Z) as [Hi|Hi].
    + destruct (decide (Z.to_nat i < n)) as [Hlt|Hge].
      * rewrite bool_decide_eq_true_2.
        -- apply lookup_replicate. done.
        -- apply elem_of_RangeIndex. exists (Z.to_nat i). split; [|done].
           f_equal. lia.
      * rewrite bool_decide_eq_false_2.
        -- apply lookup_replicate_None. lia.
        -- rewrite elem_of_RangeIndex. intros (j & [= ->] & Hj). lia.
    + rewrite bool_decide_eq_false_2; [done|].
      rewrite elem_of_RangeIndex. intros (j & [= ->] & Hj). lia.
  - rewrite bool_decide_eq_false_2; [done|].
    rewrite elem_of_RangeIndex. by intros (j & [=] & Hj).
Qed.

(** The cells of the event_time column, row by row. *)
Lemma event_time_series_cells df now :
  event_time_series df now
  = Float64Series
      ((λ label, if bool_decide (label ∈ RangeIndex (len df))
                 then float_of_int now else float_nan) <$> index df).
Proof.
  unfold event_time_series, reindex, pd_Series_float64. f_equal.
  apply list_fmap_ext. intros i label _. simpl.
  rewrite fmap_replicate, loc_replicate. by case_bool_decide.
Qed.

(** On the default index the column is the Series as it was made. *)
Lemma event_time_series_default df now :
  index df = RangeIndex (len df) →
  event_time_series df now = Float64Series (replicate (len df) (float_of_int now)).
Proof.
  intros Hidx. rewrite event_time_series_cells. f_equal. symmetry.
  apply replicate_as_Forall. split; [by rewrite length_fmap|].
  apply Forall_fmap, Forall_forall. intros label Hin. simpl.
  rewrite Hidx in Hin. by rewrite bool_decide_eq_true_2.
Qed.

Lemma size_event_time_series df now : size (event_time_series df now) = len df.
Proof. unfold size, event_time_series, reindex. simpl. by rewrite !length_fmap. Qed.

Lemma index_append_event_time df now : index (append_event_time df now) = index df.
Proof. unfold append_event_time. apply index_setitem. Qed.

Lemma append_event_time_columns df now :
  let s := event_time_series df now in
  columns (append_event_time df now)
  = if bool_decide (event_time_feature_name ∈ labels df)
    then (λ c, if bool_decide (c.1 = event_time_feature_name)
               then (event_time_feature_name, s) else c) <$> columns df
    else columns df ++ [(event_time_feature_name, s)].
Proof. unfold append_event_time, setitem. by case_bool_decide. Qed.

Lemma event_time_of_append df now i c :
  columns (append_event_time df now) !! i = Some (event_time_feature_name, c) →
  c = event_time_series df now.
Proof.
  rewrite append_event_time_columns. case_bool_decide as Hin.
  - rewrite list_lookup_fmap. destruct (columns df !! i) as [c0|]; [|done]. simpl.
    case_bool_decide; [congruence|]. destruct c0; naive_solver.
  - intros Hi. apply lookup_app_Some in Hi as [Hi|[_ Hi]].
    + destruct Hin. apply (label_of_column df (event_time_feature_name, c)).
      by eapply list_elem_of_lookup_2.
    + apply list_lookup_singleton_Some in Hi as [_ Hi]. congruence.
Qed.

(** C9, as the code has it. The Series assigned to event_time is made with
    the labels 0..n-1, n the number of rows, and pandas aligns it on the
    frame's row labels: a row whose label is one of 0..n-1 holds
    [float(current_time_sec)], any other row NaN. So on the default index,
    which [read_csv] gives unless the rows of the file have a field more
    than its header, every row holds the one value; the column has as many
    rows as the frame either way. The assignment leaves the row labels and
    the columns under every other label where and what they were; a column
    already labelled event_time is replaced where it stands, and only a
    frame without one gets the column appended. The frame handed to
    [ingest] is the frame read, cast, with its event_time from the run's
    one reading of the clock: read on the default index, it has that
    reading in every row. *)
Theorem event_time_column (df : DataFrame) (now : Z) w fuel :
  let df' := append_event_time df now in
  let s := event_time_series df now in
  (len df' = len df ∧ size s = len df ∧ index df' = index df ∧
   (∃ i, columns df' !! i = Some (event_time_feature_name, s)) ∧
   (∀ i c, columns df' !! i = Some (event_time_feature_name, c) → c = s) ∧
   (∀ i label c, label ≠ event_time_feature_name →
      columns df !! i = Some (label, c) → columns df' !! i = Some (label, c)) ∧
   (event_time_feature_name ∈ labels df →
      columns df' = (λ c, if bool_decide (c.1 = event_time_feature_name)
                          then (event_time_feature_name, s) else c) <$> columns df) ∧
   (event_time_feature_name ∉ labels df →
      columns df' = columns df ++ [(event_time_feature_name, s)])) ∧
  (s = Float64Series
         ((λ label, if bool_decide (label ∈ RangeIndex (len df))
                    then float_of_int now else float_nan) <$> index df) ∧
   (index df = RangeIndex (len df) →
      s = Float64Series (replicate (len df) (float_of_int now)))) ∧
  (∀ g data workers wait,
     (g, data, workers, wait) ∈ omap ingest_of (run w fuel).2 →
     ∃ body df0 t,
       respond w _ (read_csv body) = Ok df0 ∧
       omap clock_of (run w fuel).2 = [Ok t] ∧
       data = append_event_time (cast_object_to_string df0).2 (current_time_sec t) ∧
       index data = index df0 ∧
       (index df0 = RangeIndex (len df0) →
          ∀ i c, columns data !! i = Some (event_time_feature_name, c) →
            c = Float64Series (replicate (len df0) (float_of_int (current_time_sec t))))).
Proof.
  intros df' s. split_and!.
  - apply nrows_setitem.
  - apply size_event_time_series.
  - apply index_append_event_time.
  - subst df'. rewrite append_event_time_columns. fold s. case_bool_decide as Hin.
    + unfold labels in Hin. apply list_elem_of_fmap in Hin as (c & Hc & Hin).
      apply list_elem_of_lookup in Hin as [i Hi]. exists i.
      rewrite list_lookup_fmap, Hi. simpl. by rewrite bool_decide_eq_true_2.
    + exists (length (columns df)). by rewrite list_lookup_middle.
  - intros i c. apply event_time_of_append.
  - intros i label c Hne Hi. subst df'. rewrite append_event_time_columns.
    case_bool_decide.
    + rewrite list_lookup_fmap, Hi. simpl. by rewrite bool_decide_eq_false_2.
    + by apply lookup_app_l_Some.
  - intros Hin. subst df'. rewrite append_event_time_columns.
    by rewrite bool_decide_eq_true_2.
  - intros Hin. subst df'. rewrite append_event_time_columns.
    by rewrite bool_decide_eq_false_2.
  - apply event_time_series_cells.
  - apply event_time_series_default.
  - intros g data workers wait Hin.
    destruct (ingest_calls w fuel) as [[Hnone _]|(body & df0 & t & Hread & _ & Hing & Hclock)].
    + rewrite Hnone in Hin. by apply elem_of_nil in Hin.
    + rewrite Hing in Hin. apply list_elem_of_singleton in Hin. simplify_eq.
      exists body, df0, t. unfold prepared.
      assert (index (cast_object_to_string df0).2 = index df0) as Hidx
        by apply cast_loop_index.
      split_and!; [done..| |].
      * by rewrite index_append_event_time.
      * intros Hdef i c Hi. apply event_time_of_append in Hi as ->.
        unfold len, nrows in *. rewrite <- Hidx in Hdef |- *.
        by apply event_time_series_default.
Qed.

(** ** Registering the schema *)

Lemma registration_calls w fuel :
  (omap registration_of (run w fuel).2 = [] ∧ (run w fuel).1 ≠ Returned ()) ∨
  ∃ body df0 now bucket role,
    respond w _ (read_csv body) = Ok df0 ∧
    respond w _ time_time = Ok now ∧
    respond w _ default_bucket = Ok bucket ∧
    respond w _ get_execution_role = Ok role ∧
    ((omap registration_of (run w fuel).2
      = [Loaded fd_feature_group_name (prepared df0 now)] ∧
      (run w fuel).1 ≠ Returned ()) ∨
     omap registration_of (run w fuel).2
     = [Loaded fd_feature_group_name (prepared df0 now);
        Created fd_feature_group_name ("s3://" +:+ bucket +:+ "/" +:+ prefix)
          "record_id" "event_time" role true]).
Proof.
  run_cells (λ (out : outcome ()) evs,
    (omap registration_of evs = [] ∧ out ≠ Returned ()) ∨
    ∃ body df0 now bucket role,
      respond w _ (read_csv body) = Ok df0 ∧
      respond w _ time_time = Ok now ∧
      respond w _ default_bucket = Ok bucket ∧
      respond w _ get_execution_role = Ok role ∧
      ((omap registration_of evs = [Loaded fd_feature_group_name (prepared df0 now)] ∧
        out ≠ Returned ()) ∨
       omap registration_of evs
       = [Loaded fd_feature_group_name (prepared df0 now);
          Created fd_feature_group_name ("s3://" +:+ bucket +:+ "/" +:+ prefix)
            "record_id" "event_time" role true])).
  all: skip_polls; try (by left).
  all: right; eexists _, _, _, _, _; split_and!; [eassumption..|].
  all: unfold prepared; rewrite Heqp; simpl; auto.
Qed.

(** C7. The schema is left to the SDK: the registering calls of a run are,
    in this order and at most, [load_feature_definitions] on the frame as
    prepared (object columns cast, event_time appended) and [create] with
    "record_id" for the record identifier, "event_time" for the event time
    and the online store enabled; a run that goes all the way makes both,
    once each. No call of the notebook carries a feature definition. *)
Theorem schema_registration_delegated w fuel :
  let regs := omap registration_of (run w fuel).2 in
  (regs = [] ∨
   ∃ body df0 now bucket role,
     respond w _ (read_csv body) = Ok df0 ∧
     respond w _ time_time = Ok now ∧
     respond w _ default_bucket = Ok bucket ∧
     respond w _ get_execution_role = Ok role ∧
     regs ≠ [] ∧
     regs `prefix_of`
       [Loaded "transactionfeaturegroup001"
          (append_event_time (cast_object_to_string df0).2 (current_time_sec now));
        Created "transactionfeaturegroup001"
          ("s3://" +:+ bucket +:+ "/sagemaker-featurestore-demo")
          "record_id" "event_time" role true]) ∧
  ((run w fuel).1 = Returned () → length regs = 2).
Proof.
  intros regs. subst regs.
  destruct (registration_calls w fuel)
    as [[-> Hout]|(body & df0 & now & bucket & role & Hcsv & Hnow & Hb & Hr
                   & [[-> Hout]| ->])].
  - split; [by left|done].
  - split; [|done]. right. exists body, df0, now, bucket, role.
    split_and!; try done. by eexists.
  - split; [|done]. right. exists body, df0, now, bucket, role.
    split_and!; try done.
Qed.


(** ** The order of the cells *)

Lemma polls_milestones polls :
  Forall (λ e, calm_poll e = true) polls →
  ∃ j, omap milestone_of polls = replicate j Poll.
Proof.
  induction 1 as [|e polls He _ [j IH]]; [by exists 0|].
  destruct e as [A c r|g [d|x]|line|secs|o]; try done; simpl;
    rewrite list_omap_fold, IH.
  - by exists (S j).
  - by exists j.
  - by exists j.
Qed.

Lemma story_prefix j tail :
  tail `prefix_of` [Ingest; Retrieve; ShowRecord] →
  Fetch :: Read :: Parse :: Create :: replicate j Poll ++ tail `prefix_of` story j.
Proof.
  intros Htail. unfold story.
  apply (prefix_app [Fetch; Read; Parse; Create]). by apply prefix_app.
Qed.

Lemma story_prefix_polls j :
  Fetch :: Read :: Parse :: Create :: replicate j Poll `prefix_of` story j.
Proof.
  rewrite <- (app_nil_r (replicate j Poll)). apply story_prefix, prefix_nil.
Qed.

Lemma story_more_polls j tail :
  Fetch :: Read :: Parse :: Create :: replicate j Poll ++ Poll :: tail
  = Fetch :: Read :: Parse :: Create :: replicate (S j) Poll ++ tail.
Proof. by rewrite replicate_S_end, <- app_assoc. Qed.

Lemma milestones w fuel :
  ∃ k, omap milestone_of (run w fuel).2 `prefix_of` story k ∧
       ((run w fuel).1 = Returned () → omap milestone_of (run w fuel).2 = story k).
Proof.
  run_cells (λ (out : outcome ()) evs,
    ∃ k, omap milestone_of evs `prefix_of` story k ∧
         (out = Returned () → omap milestone_of evs = story k)).
  all: try (exists 0; split; [by eexists|done]).
  all: destruct (polls_milestones _ Hcalm) as [j Hj].
  all: repeat (simpl; rewrite ?list_omap_fold, ?omap_app); rewrite ?list_omap_fold, Hj.
  all: simpl; rewrite ?(story_more_polls j).
  all: try (exists (S j); split; [apply story_prefix; by eexists|done]).
  exists j. split; [apply story_prefix_polls|done].
Qed.

Lemma guarded_calm p q tr : Forall (λ e, q e = false) tr → guarded p q tr = true.
Proof.
  intros Hq. rewrite <- (app_nil_r tr). by apply guarded_app_calm.
Qed.

Ltac no_such_poll :=
  eapply calm_polls; [|eassumption]; by intros [? [] []|? []| | |[]].

Ltac past_polls :=
  simpl;
  first
    [ reflexivity
    | apply guarded_app_seen; [no_such_poll|assumption]
    | apply guarded_app_calm; [no_such_poll|simpl; try case_bool_decide; reflexivity]
    | apply guarded_calm; no_such_poll ].

Lemma data_read_first w fuel :
  guarded parsed feature_store_call (run w fuel).2 = true.
Proof.
  run_cells (λ (out : outcome ()) evs, guarded parsed feature_store_call evs = true).
  all: reflexivity.
Qed.

Lemma polled_to_completion w fuel :
  guarded read_created is_ingest (run w fuel).2 = true.
Proof.
  run_cells (λ (out : outcome ()) evs, guarded read_created is_ingest evs = true).
  all: past_polls.
Qed.

Lemma lookup_after_ingest w fuel :
  guarded ingested is_lookup (run w fuel).2 = true.
Proof.
  run_cells (λ (out : outcome ()) evs, guarded ingested is_lookup evs = true).
  all: past_polls.
Qed.

(** C5. The milestones of a run come in one order: the file is fetched,
    read and parsed, the group is created and polled, the rows are
    ingested, the record is retrieved and shown; a run stops somewhere
    along this line, and one that goes all the way has all of it. No
    call of the feature store (the SDK's feature group, the service behind
    it) comes before the file is parsed: what comes before is setting up
    session, bucket and role. The ingest comes only after a poll has read
    "Created", and no lookup comes before the ingest has come back. *)
Theorem cells_in_order w fuel :
  (∃ k, omap milestone_of (run w fuel).2 `prefix_of` story k ∧
        ((run w fuel).1 = Returned () → omap milestone_of (run w fuel).2 = story k)) ∧
  (∀ pre e post, (run w fuel).2 = pre ++ e :: post →
     feature_store_call e = true → Exists (λ e, parsed e = true) pre) ∧
  (∀ pre e post, (run w fuel).2 = pre ++ e :: post →
     is_ingest e = true → Exists (λ e, read_created e = true) pre) ∧
  (∀ pre e post, (run w fuel).2 = pre ++ e :: post →
     is_lookup e = true → Exists (λ e, ingested e = true) pre).
Proof.
  split_and!.
  - apply milestones.
  - apply guarded_sound, data_read_first.
  - apply guarded_sound, polled_to_completion.
  - apply guarded_sound, lookup_after_ingest.
Qed.


(** ** Exceptions *)

Lemma unhandled_sound {A} (out : outcome A) tr :
  unhandled out tr →
  ∀ pre e post x, tr = pre ++ e :: post → failure_of e = Some x →
    post = [] ∧ out = Raised (Propagated x).
Proof.
  induction tr as [|e0 tr IH]; intros Hun pre e post x Heq Hfail.
  - by destruct pre.
  - simpl in Hun. destruct pre as [|e1 pre]; simplify_eq/=.
    + by rewrite Hfail in Hun.
    + destruct (failure_of e1); [|by eapply IH].
      destruct Hun as [Hnil _]. by destruct pre.
Qed.

Lemma unhandled_app_calm {A} (out : outcome A) tr tr' :
  Forall (λ e, calm_poll e = true) tr → unhandled out tr' → unhandled out (tr ++ tr').
Proof.
  induction 1 as [|e tr He _ IH]; intros Hun; [done|].
  destruct e as [? ? []|? []| | |]; simpl in *; try done; by apply IH.
Qed.

Lemma unhandled_calm {A} (out : outcome A) tr :
  Forall (λ e, calm_poll e = true) tr → unhandled out tr.
Proof. intros Hc. rewrite <- (app_nil_r tr). by apply unhandled_app_calm. Qed.

Lemma snoc_single {A} (x : A) : [x] = [] ++ [x].
Proof. done. Qed.

Lemma snoc_cons {A} (x y : A) l pre : l = pre ++ [y] → x :: l = (x :: pre) ++ [y].
Proof. by intros ->. Qed.

Lemma snoc_app {A} (y : A) l0 l pre : l = pre ++ [y] → l0 ++ l = (l0 ++ pre) ++ [y].
Proof. intros ->. by rewrite app_assoc. Qed.

Ltac find_last :=
  repeat first [apply snoc_single | reflexivity | apply snoc_cons | apply snoc_app].

Ltac no_failure_swallowed :=
  simpl;
  first
    [ done
    | apply unhandled_app_calm; [assumption|simpl; done]
    | by apply unhandled_calm ].

Lemma failures w fuel :
  unhandled (run w fuel).1 (run w fuel).2 ∧
  (∀ x, (run w fuel).1 = Raised (Propagated x) →
     (∃ pre e, (run w fuel).2 = pre ++ [e] ∧ failure_of e = Some x) ∨
     (∃ body df0, respond w _ (read_csv body) = Ok df0 ∧
                  (cast_object_to_string df0).1 = Fail x)) ∧
  (∀ msg, (run w fuel).1 = Raised (RuntimeError msg) →
     msg = "Failed to create feature group transactionfeaturegroup001" ∧
     ∃ pre d, (run w fuel).2 = pre ++ [Described fd_feature_group_name (Ok d)] ∧
              d !! "FeatureGroupStatus" ≠ Some "Created" ∧
              d !! "FeatureGroupStatus" ≠ Some "Creating").
Proof.
  run_cells (λ (out : outcome ()) evs,
    unhandled out evs ∧
    (∀ x, out = Raised (Propagated x) →
       (∃ pre e, evs = pre ++ [e] ∧ failure_of e = Some x) ∨
       (∃ body df0, respond w _ (read_csv body) = Ok df0 ∧
                    (cast_object_to_string df0).1 = Fail x)) ∧
    (∀ msg, out = Raised (RuntimeError msg) →
       msg = "Failed to create feature group transactionfeaturegroup001" ∧
       ∃ pre d, evs = pre ++ [Described fd_feature_group_name (Ok d)] ∧
                d !! "FeatureGroupStatus" ≠ Some "Created" ∧
                d !! "FeatureGroupStatus" ≠ Some "Creating")).
  all: split_and!; [no_failure_swallowed| |].
  all: try (intros ? [=]; fail).
  all: try (intros ? [= <-]; left; eexists _, _; split; [find_last|reflexivity]).
  all: try (intros ? [= <-]; split; [reflexivity|]; eexists _, _; split; [find_last|done]).
  intros ? [= <-]. right. eexists _, _. split; [eassumption|]. by rewrite Heqp.
Qed.

(** C6. The RuntimeError of [wait_for_feature_group_creation_complete]
    is the one exception the notebook raises itself, and it raises it only
    with the last poll reading neither "Creating" nor "Created". Any other
    exception a run ends with is the one a library call, or pandas while
    casting, has just raised; and no exception is handled: a call that
    fails is the last event of the run, which ends with that exception. *)
Theorem runtime_error_is_the_only_check w fuel :
  (∀ msg, (run w fuel).1 = Raised (RuntimeError msg) →
     msg = "Failed to create feature group transactionfeaturegroup001" ∧
     ∃ pre d, (run w fuel).2 = pre ++ [Described fd_feature_group_name (Ok d)] ∧
              d !! "FeatureGroupStatus" ≠ Some "Created" ∧
              d !! "FeatureGroupStatus" ≠ Some "Creating") ∧
  (∀ x, (run w fuel).1 = Raised (Propagated x) →
     (∃ pre e, (run w fuel).2 = pre ++ [e] ∧ failure_of e = Some x) ∨
     (∃ body df0, respond w _ (read_csv body) = Ok df0 ∧
                  (cast_object_to_string df0).1 = Fail x)) ∧
  (∀ pre e post x, (run w fuel).2 = pre ++ e :: post → failure_of e = Some x →
     post = [] ∧ (run w fuel).1 = Raised (Propagated x)).
Proof.
  destruct (failures w fuel) as (Hun & Hlib & Hown).
  split_and!; [done|done|]. by apply unhandled_sound.
Qed.


(** * Further properties of the notebook's code *)

(** ** cast_object_to_string: when it returns, and what it leaves *)

Lemma labelled_fmap (f : string * series → string * series) label n cols :
  (∀ c, (f c).1 = c.1) →
  labelled label (frame n (f <$> cols)) = f <$> labelled label (frame n cols).
Proof.
  intros Hf. unfold labelled. simpl.
  induction cols as [|c cols IH]; [done|].
  rewrite fmap_cons, !filter_cons, Hf, IH. by case_decide.
Qed.

Lemma labelled_labels label df : label ∈ labels df → labelled label df ≠ [].
Proof.
  unfold labels. intros Hin Hnil.
  apply list_elem_of_fmap in Hin as (c & -> & Hc).
  by apply (filter_nil_not_elem_of _ _ c Hnil).
Qed.

Lemma labelled_setitem label label' df s c :
  labelled label' df = [c] →
  labelled label (setitem df label' s)
  = (λ c, if bool_decide (c.1 = label') then (label', s) else c) <$> labelled label df.
Proof.
  intros Hone. destruct (labelled_single_elem _ _ _ Hone) as [Hin Hl].
  rewrite setitem_present by (rewrite <- Hl; by apply label_of_column).
  rewrite labelled_fmap; [by destruct df|].
  intros c'. by case_bool_decide.
Qed.

Lemma cast_loop_labels todo : ∀ df, labels (cast_loop todo df).2 = labels df.
Proof.
  induction todo as [|label todo IH]; intros df; simpl; [done|].
  destruct (dtype_is df label "object") as [b|e] eqn:Hd; [|done].
  apply dtype_is_object_inv in Hd as (c & Hone & ->).
  case_bool_decide; [|by apply IH].
  rewrite (getitem_single _ _ _ Hone), IH.
  destruct (labelled_single_elem _ _ _ Hone) as [Hin Hl].
  apply labels_setitem. rewrite <- Hl. by apply label_of_column.
Qed.

(** A call that returns has found every label it looked at once. *)
Lemma cast_loop_single todo : ∀ df,
  (cast_loop todo df).1 = Ok () →
  ∀ label, label ∈ todo → ∃ c, labelled label df = [c].
Proof.
  induction todo as [|label0 todo IH]; intros df Hok label Hin;
    [by apply elem_of_nil in Hin|].
  simpl in Hok.
  destruct (dtype_is df label0 "object") as [b|e] eqn:Hd; [|done].
  apply dtype_is_object_inv in Hd as (c & Hone & ->).
  apply elem_of_cons in Hin as [->|Hin]; [by exists c|].
  case_bool_decide; [|by apply (IH df)].
  rewrite (getitem_single _ _ _ Hone) in Hok.
  destruct (IH _ Hok label Hin) as [c' Hc'].
  rewrite (labelled_setitem _ _ _ _ _ Hone) in Hc'.
  destruct (labelled label df) as [|c1 [|c2 l]]; try done. by exists c1.
Qed.

Lemma single_NoDup (cols : list (string * series)) :
  (∀ label, label ∈ cols.*1 → ∃ c, filter (λ c, c.1 = label) cols = [c]) →
  NoDup cols.*1.
Proof.
  induction cols as [|c cols IH]; intros Hone; [constructor|].
  rewrite fmap_cons. apply NoDup_cons. split.
  - intros Hin. destruct (Hone c.1) as [c0 Hc0]; [rewrite fmap_cons; left|].
    rewrite filter_cons_True in Hc0 by done.
    apply list_elem_of_fmap in Hin as (c' & Heq & Hc').
    assert (c' ∈ filter (λ c0, c0.1 = c.1) cols) as Hf
      by (apply list_elem_of_filter; done).
    destruct (filter (λ c0, c0.1 = c.1) cols); [by apply elem_of_nil in Hf|done].
  - apply IH. intros label Hin.
    destruct (Hone label) as [c0 Hc0]; [rewrite fmap_cons; by right|].
    rewrite filter_cons in Hc0. case_decide as Hl; [|by exists c0].
    apply list_elem_of_fmap in Hin as (c' & Heq & Hc').
    assert (c' ∈ filter (λ c0, c0.1 = label) cols) as Hf
      by (apply list_elem_of_filter; done).
    destruct (filter (λ c0, c0.1 = label) cols); [by apply elem_of_nil in Hf|done].
Qed.

Lemma cast_returns_NoDup df :
  (cast_object_to_string df).1 = Ok () → NoDup (labels df).
Proof.
  intros Hok. apply single_NoDup. intros label Hin.
  by apply (cast_loop_single (labels df) df Hok).
Qed.

Lemma cast_loop_fail todo : ∀ df x,
  todo ⊆ labels df → (cast_loop todo df).1 = Fail x → x = ambiguous_truth.
Proof.
  induction todo as [|label todo IH]; intros df x Hsub; simpl; [done|].
  assert (label ∈ labels df) as Hin by (apply Hsub; left).
  assert (todo ⊆ labels df) as Hsub' by (intros l Hl; apply Hsub; by right).
  pose proof (labelled_labels _ _ Hin) as Hne.
  unfold dtype_is, getitem.
  destruct (labelled label df) as [|c [|c' l]] eqn:Hone; [done| |by intros [= <-]].
  case_bool_decide; [|by apply IH].
  apply IH. by rewrite labels_setitem.
Qed.

(** X1. [cast_object_to_string] returns exactly on the frames whose column
    labels are all different; on any other frame it raises, and what it
    raises is the ValueError pandas has for the truth value of a Series. *)
Theorem cast_object_to_string_returns_iff df :
  ((cast_object_to_string df).1 = Ok () ↔ NoDup (labels df)) ∧
  (∀ x, (cast_object_to_string df).1 = Fail x → x = ambiguous_truth).
Proof.
  split; [split|].
  - apply cast_returns_NoDup.
  - apply cast_object_to_string_returns.
  - intros x. by apply cast_loop_fail.
Qed.

Lemma cast_returned_columns df df' :
  cast_object_to_string df = (Ok (), df') →
  index df' = index df ∧ columns df' = cast_column <$> columns df.
Proof.
  intros Hcast. apply cast_loop_ok in Hcast as [Hn ->]. split; [done|].
  apply list_fmap_ext. intros i c Hi. simpl. rewrite bool_decide_eq_true_2; [done|].
  apply label_of_column. by eapply list_elem_of_lookup_2.
Qed.

Lemma cast_column_not_object c : dtype_of (cast_column c).2 ≠ DObject.
Proof. by destruct c as [l []]. Qed.

(** X2. Once [cast_object_to_string] has returned, the frame has its
    labels in the order they had and no object column: what was left for
    the SDK to map has a type it maps. *)
Theorem cast_object_to_string_leaves_no_object df df' :
  cast_object_to_string df = (Ok (), df') →
  labels df' = labels df ∧
  ∀ i label s, columns df' !! i = Some (label, s) → dtype_of s ≠ DObject.
Proof.
  intros Hcast. split.
  - rewrite <- (cast_loop_labels (labels df) df).
    unfold cast_object_to_string in Hcast. by rewrite Hcast.
  - apply cast_returned_columns in Hcast as [_ Hcols].
    intros i label s. rewrite Hcols, list_lookup_fmap.
    destruct (columns df !! i) as [c|]; [|done]. simpl. intros [= Hc].
    pose proof (cast_column_not_object c) as Hne. by rewrite Hc in Hne.
Qed.

(** X3. Calling [cast_object_to_string] again on a frame it has returned
    on returns and changes nothing. *)
Theorem cast_object_to_string_twice df df' :
  cast_object_to_string df = (Ok (), df') →
  cast_object_to_string df' = (Ok (), df').
Proof.
  intros Hcast.
  pose proof (cast_loop_labels (labels df) df) as Hl.
  pose proof (cast_returns_NoDup df) as Hnd.
  unfold cast_object_to_string in Hcast, Hnd. rewrite Hcast in Hl, Hnd.
  simpl in Hl, Hnd. specialize (Hnd eq_refl). rewrite <- Hl in Hnd.
  apply cast_object_to_string_returns in Hnd.
  apply (cast_returned_columns df df') in Hcast as [Hn Hcols].
  destruct (cast_object_to_string df') as [r df''] eqn:Hagain.
  simpl in Hnd. subst r. f_equal.
  apply cast_returned_columns in Hagain as [Hn' Hcols'].
  rewrite Hcols, <- list_fmap_compose in Hcols'.
  rewrite (list_fmap_ext (cast_column ∘ cast_column) cast_column) in Hcols'
    by (intros i c _; apply cast_column_idemp).
  rewrite <- Hcols in Hcols'.
  destruct df', df''; simpl in *; by subst.
Qed.



Lemma size_cast s : size (astype_string (astype_str s)) = size s.
Proof. unfold size. simpl. by rewrite !length_fmap. Qed.

Lemma cast_loop_aligned todo : ∀ df, aligned df → aligned (cast_loop todo df).2.
Proof.
  induction todo as [|label todo IH]; intros df Hal; simpl; [done|].
  destruct (dtype_is df label "object") as [b|e] eqn:Hd; [|done].
  apply dtype_is_object_inv in Hd as (c & Hone & ->).
  case_bool_decide; [|by apply IH].
  rewrite (getitem_single _ _ _ Hone). apply IH.
  destruct (labelled_single_elem _ _ _ Hone) as [Hin Hl].
  rewrite setitem_present by (rewrite <- Hl; by apply label_of_column).
  unfold aligned in *. simpl. apply Forall_fmap.
  rewrite Forall_forall in Hal. apply Forall_forall. intros c' Hc'. simpl.
  case_bool_decide; simpl; [|by apply Hal].
  rewrite size_cast. by apply Hal.
Qed.

(** X4. However [cast_object_to_string] ends, the frame has the labels it
    had, in their order, and if every column had as many cells as the frame
    has rows, every column still has. *)
Theorem cast_object_to_string_keeps_shape df :
  labels (cast_object_to_string df).2 = labels df ∧
  (aligned df → aligned (cast_object_to_string df).2).
Proof. split; [apply cast_loop_labels|apply cast_loop_aligned]. Qed.

Lemma cast_loop_app pre : ∀ todo df,
  cast_loop (pre ++ todo) df
  = match cast_loop pre df with
    | (Ok _, df1) => cast_loop todo df1
    | (Fail e, df1) => (Fail e, df1)
    end.
Proof.
  induction pre as [|label pre IH]; intros todo df; simpl; [done|].
  destruct (dtype_is df label "object") as [[]|e]; [|by apply IH|done].
  destruct (getitem df label); [by apply IH|done].
Qed.

Lemma cast_loop_singles todo : ∀ df,
  (∀ label, label ∈ todo → ∃ c, labelled label df = [c]) →
  (cast_loop todo df).1 = Ok ().
Proof.
  induction todo as [|label todo IH]; intros df Hone; simpl; [done|].
  destruct (Hone label) as [c Hc]; [left|].
  unfold dtype_is, getitem. rewrite Hc.
  case_bool_decide; (apply IH; intros label' Hin;
    destruct (Hone label') as [c' Hc']; [by right|]); [|by exists c'].
  rewrite (labelled_setitem _ _ _ _ _ Hc), Hc'. by eexists.
Qed.

Lemma filter_absent label (cols : list (string * series)) :
  label ∉ cols.*1 → filter (λ c, c.1 = label) cols = [].
Proof.
  induction cols as [|c cols IH]; [done|].
  rewrite fmap_cons, not_elem_of_cons. intros [Hne Hnin].
  rewrite filter_cons_False by done. by apply IH.
Qed.

Lemma labels_split df A label B :
  labels df = A ++ label :: B →
  ∃ cA c cB, columns df = cA ++ c :: cB ∧ A = cA.*1 ∧ c.1 = label ∧ B = cB.*1.
Proof.
  unfold labels. intros Hl.
  apply fmap_app_inv in Hl as (cA & cR & -> & HR & ->).
  symmetry in HR. apply fmap_cons_inv in HR as (c & cB & -> & -> & ->).
  by exists cA, c, cB.
Qed.

Lemma labelled_once df A label B :
  labels df = A ++ label :: B → label ∉ A → label ∉ B →
  ∃ c, labelled label df = [c].
Proof.
  intros Hl HA HB. apply labels_split in Hl as (cA & c & cB & Hcols & -> & Hc & ->).
  exists c. unfold labelled. rewrite Hcols, filter_app, filter_cons_True by done.
  by rewrite !filter_absent.
Qed.

Lemma labelled_twice df A label B :
  labels df = A ++ label :: B → label ∉ A → label ∈ B →
  ∃ c c' more, labelled label df = c :: c' :: more.
Proof.
  intros Hl HA HB. apply labels_split in Hl as (cA & c & cB & Hcols & -> & Hc & ->).
  apply list_elem_of_fmap in HB as (c' & Hc' & Hin).
  assert (c' ∈ filter (λ c0, c0.1 = label) cB) as Hf by (apply list_elem_of_filter; done).
  unfold labelled. rewrite Hcols, filter_app, filter_cons_True, filter_absent by done.
  destruct (filter (λ c0, c0.1 = label) cB) as [|c'' more];
    [by apply elem_of_nil in Hf|]. by exists c, c'', more.
Qed.

(** X5. Where a label comes twice, [cast_object_to_string] has by then
    gone through the labels before it: it raises at the first label that
    comes again, and leaves the frame with the object columns under the
    earlier labels already cast and every other column as it was. *)
Theorem cast_object_to_string_stops_at_repeated_label df pre label rest :
  labels df = pre ++ label :: rest →
  NoDup pre → (∀ l, l ∈ pre → l ∉ label :: rest) → label ∈ rest →
  cast_object_to_string df
  = (Fail ambiguous_truth,
     frame (index df)
       ((λ c, if bool_decide (c.1 ∈ pre) then cast_column c else c) <$> columns df)).
Proof.
  intros Hl Hnd Hpre Hrest.
  assert (∀ l, l ∈ pre → ∃ c, labelled l df = [c]) as Hsingles.
  { intros l Hin. apply list_elem_of_split in Hin as (A & A' & ->).
    apply NoDup_app in Hnd as (_ & HA & HA'). apply NoDup_cons in HA' as [HA' _].
    apply (labelled_once df A l (A' ++ label :: rest)).
    - by rewrite Hl, <- app_assoc.
    - intros Hin. by apply (HA l Hin); left.
    - rewrite elem_of_app. intros [Hin|Hin]; [done|].
      apply (Hpre l); [|done]. rewrite elem_of_app. right. left. }
  assert (label ∉ pre) as Hfresh by (intros Hin; apply (Hpre label Hin); left).
  destruct (labelled_twice df pre label rest Hl Hfresh Hrest) as (c & c' & more & Htwice).
  unfold cast_object_to_string. rewrite Hl, cast_loop_app.
  pose proof (cast_loop_singles pre df Hsingles) as Hok.
  destruct (cast_loop pre df) as [r df1] eqn:Hloop. simpl in Hok. subst r.
  apply cast_loop_ok in Hloop as [Hn Hcols].
  destruct df as [n cols], df1 as [n1 cols1]. simpl in *. subst n1 cols1.
  unfold dtype_is. rewrite labelled_fmap, Htwice; [done|].
  intros c0. case_bool_decide; [apply cast_column_fst|done].
Qed.

(** ** The event_time column, assigned again and after the cast *)

Lemma labels_append_event_time df now :
  labels (append_event_time df now)
  = if bool_decide (event_time_feature_name ∈ labels df)
    then labels df else labels df ++ [event_time_feature_name].
Proof.
  unfold labels at 1. rewrite append_event_time_columns. case_bool_decide.
  - rewrite <- list_fmap_compose. apply list_fmap_ext. intros i c _. simpl.
    by case_bool_decide.
  - by rewrite fmap_app.
Qed.

(** X6. Assigning event_time again, as running the cell again does, gives
    the frame that one assignment of the later value gives: the column is
    overwritten, and no second one is added. *)
Theorem append_event_time_again df now later :
  append_event_time (append_event_time df now) later = append_event_time df later.
Proof.
  assert (event_time_feature_name ∈ labels (append_event_time df now)) as Hin.
  { rewrite labels_append_event_time. case_bool_decide; [done|].
    rewrite elem_of_app. right. left. }
  pose proof (append_event_time_columns (append_event_time df now) later) as Hcols.
  rewrite bool_decide_eq_true_2 in Hcols by done.
  pose proof (append_event_time_columns df now) as Hfirst.
  pose proof (append_event_time_columns df later) as Hlater.
  assert (index (append_event_time (append_event_time df now) later) = index df) as Hn
    by (by rewrite !index_append_event_time).
  assert (index (append_event_time df later) = index df) as Hn'
    by apply index_append_event_time.
  assert (event_time_series (append_event_time df now) later
          = event_time_series df later) as Hs
    by (unfold event_time_series, len, nrows; by rewrite index_append_event_time).
  simpl in *. rewrite Hs, Hfirst in Hcols.
  destruct (append_event_time (append_event_time df now) later) as [n2 cols2].
  destruct (append_event_time df later) as [n1 cols1]. simpl in *. subst n1 n2.
  f_equal. rewrite Hcols, Hlater. case_bool_decide as Hhas.
  - rewrite <- list_fmap_compose. apply list_fmap_ext. intros i c _. simpl.
    by repeat (case_bool_decide; simpl).
  - rewrite fmap_app. simpl. f_equal.
    rewrite <- (list_fmap_id (columns df)) at 2. apply list_fmap_ext.
    intros i c Hi. simpl. case_bool_decide as Hc; [|done].
    destruct Hhas. rewrite <- Hc. apply label_of_column.
    by eapply list_elem_of_lookup_2.
Qed.

Lemma aligned_append_event_time df now : aligned df → aligned (append_event_time df now).
Proof.
  unfold aligned. rewrite append_event_time_columns.
  unfold append_event_time. rewrite nrows_setitem. intros Hal.
  pose proof (size_event_time_series df now) as Hs. unfold len in Hs.
  case_bool_decide.
  - apply Forall_fmap. eapply Forall_impl; [exact Hal|]. intros c Hc. simpl.
    by case_bool_decide.
  - apply Forall_app. split; [done|]. by apply Forall_singleton.
Qed.

(** X7. The frame the notebook hands to the SDK, when the cast has
    returned: it has no object column, it has the labels it came with,
    with event_time added last if it was not among them, and its columns
    are as long as the frame if they were when it came. *)
Theorem prepared_frame_ready df0 now :
  (cast_object_to_string df0).1 = Ok () →
  (∀ i label s, columns (prepared df0 now) !! i = Some (label, s) → dtype_of s ≠ DObject) ∧
  labels (prepared df0 now)
  = (if bool_decide (event_time_feature_name ∈ labels df0)
     then labels df0 else labels df0 ++ [event_time_feature_name]) ∧
  (aligned df0 → aligned (prepared df0 now)).
Proof.
  intros Hok. unfold prepared.
  destruct (cast_object_to_string df0) as [r df1] eqn:Hcast. simpl in *. subst r.
  pose proof (cast_loop_labels (labels df0) df0) as Hl.
  pose proof (cast_loop_aligned (labels df0) df0) as Hal.
  unfold cast_object_to_string in Hcast. rewrite Hcast in Hl, Hal. simpl in Hl, Hal.
  apply (cast_returned_columns df0 df1) in Hcast as [_ Hcols].
  split_and!.
  - intros i label s. rewrite append_event_time_columns. case_bool_decide.
    + rewrite list_lookup_fmap. destruct (columns df1 !! i) as [c|] eqn:Hi; [|done].
      simpl. case_bool_decide; [by intros [= _ <-]|]. intros [= ->].
      rewrite Hcols, list_lookup_fmap in Hi.
      destruct (columns df0 !! i) as [c0|]; [|done]. simpl in Hi.
      pose proof (cast_column_not_object c0) as Hne. injection Hi as Hi.
      by rewrite Hi in Hne.
    + intros Hi. apply lookup_app_Some in Hi as [Hi|[_ Hi]].
      * rewrite Hcols, list_lookup_fmap in Hi.
        destruct (columns df0 !! i) as [c0|]; [|done]. simpl in Hi.
        pose proof (cast_column_not_object c0) as Hne. injection Hi as Hi.
        by rewrite Hi in Hne.
      * apply list_lookup_singleton_Some in Hi as [_ Hi]. by injection Hi as _ <-.
  - by rewrite labels_append_event_time, Hl.
  - intros Hal0. by apply aligned_append_event_time, Hal.
Qed.


(** ** The polling, event by event *)

Section Rounds.
Variable w : World.
Variable feature_group : feature_group_object.

Lemma waiting_trace_cons r r' answers :
  waiting_trace (name feature_group) (r :: r' :: answers)
  = Described (name feature_group) r
    :: Printed "Waiting for Feature Group Creation" :: Slept 5
    :: waiting_trace (name feature_group) (r' :: answers).
Proof. done. Qed.

Lemma waiting_trace_sleeps fg r answers :
  omap sleep_of (waiting_trace fg (r :: answers)) = replicate (length answers) 5%Z.
Proof.
  revert r. induction answers as [|r' answers IH]; intros r; [done|].
  change (omap sleep_of (waiting_trace fg (r :: r' :: answers)))
    with (5%Z :: omap sleep_of (waiting_trace fg (r' :: answers))).
  by rewrite IH.
Qed.

(** [k] polls read "Creating" and the next is answered otherwise: the
    polling ends there, however it is answered. *)
Lemma polls_rounds k : ∀ fuel n,
  (∀ j, j < k → polled w (n + j) = Ok (Some "Creating")) →
  polled w (n + k) ≠ Ok (Some "Creating") → k ≤ fuel →
  polls w fuel feature_group n
  = (of_result (polled w (n + k)),
     waiting_trace (name feature_group) (describe_nth w <$> seq n (S k)),
     S (n + k)).
Proof.
  induction k as [|k IH]; intros fuel n Hc Hk Hfuel.
  - rewrite Nat.add_0_r in *. unfold polled in *. simpl.
    destruct (describe_nth w n) as [d|x] eqn:Hd.
    + rewrite (polls_settled _ _ _ _ _ Hd) by congruence. done.
    + by rewrite (polls_failed _ _ _ _ _ Hd).
  - destruct fuel as [|fuel]; [lia|].
    pose proof (Hc 0 ltac:(lia)) as H0. rewrite Nat.add_0_r in H0.
    apply polled_Ok in H0 as (d & Hd & Hst).
    rewrite (polls_again _ _ _ _ _ Hd Hst).
    rewrite (IH fuel (S n)); [| |by rewrite Nat.add_succ_comm|lia].
    + rewrite Nat.add_succ_comm.
      change (seq n (S (S k))) with (n :: seq (S n) (S k)).
      rewrite fmap_cons, Hd. simpl seq. rewrite fmap_cons, waiting_trace_cons. done.
    + intros j Hj. rewrite Nat.add_succ_comm. apply Hc. lia.
Qed.

(** X8. With [k] polls reading "Creating" and the next reading another
    status, the function asks [describe()] k+1 times, one after the other,
    prints its waiting line and sleeps five seconds between one and the
    next, 5k seconds in all, and prints that the group was created, last,
    exactly if the status is "Created". *)
Theorem wait_trace_when_settled n k status fuel :
  settles w n k status → k ≤ fuel →
  wait_for_feature_group_creation_complete w fuel feature_group n
  = (if bool_decide (status = Some "Created") then Returned ()
     else Raised (RuntimeError ("Failed to create feature group " +:+ name feature_group)),
     waiting_trace (name feature_group) (describe_nth w <$> seq n (S k))
     ++ (if bool_decide (status = Some "Created")
         then [Printed ("FeatureGroup " +:+ name feature_group +:+ " successfully created.")]
         else []),
     S (n + k)) ∧
  omap sleep_of (wait_for_feature_group_creation_complete w fuel feature_group n).1.2
  = replicate k 5%Z.
Proof.
  intros (Hc & Hk & Hne) Hfuel.
  assert (wait_for_feature_group_creation_complete w fuel feature_group n
          = (if bool_decide (status = Some "Created") then Returned ()
             else Raised (RuntimeError ("Failed to create feature group "
                                        +:+ name feature_group)),
             waiting_trace (name feature_group) (describe_nth w <$> seq n (S k))
             ++ (if bool_decide (status = Some "Created")
                 then [Printed ("FeatureGroup " +:+ name feature_group
                                +:+ " successfully created.")]
                 else []),
             S (n + k))) as Heq.
  { rewrite wait_polls, (polls_rounds k) by (done || congruence).
    rewrite Hk. simpl. by repeat case_bool_decide; rewrite ?app_nil_r. }
  split; [done|]. rewrite Heq. cbn [fst snd]. rewrite omap_app.
  change (seq n (S k)) with (n :: seq (S n) k).
  rewrite fmap_cons, waiting_trace_sleeps, length_fmap, length_seq.
  case_bool_decide; simpl; by rewrite app_nil_r.
Qed.

(** X9. With [k] polls reading "Creating" and the next [describe()]
    raising, the function ends with that exception, after k rounds of
    waiting, and prints nothing more. *)
Theorem wait_propagates_describe_failure n k x fuel :
  (∀ j, j < k → polled w (n + j) = Ok (Some "Creating")) →
  describe_nth w (n + k) = Fail x → k ≤ fuel →
  wait_for_feature_group_creation_complete w fuel feature_group n
  = (Raised (Propagated x),
     waiting_trace (name feature_group) (describe_nth w <$> seq n (S k)),
     S (n + k)).
Proof.
  intros Hc Hk Hfuel.
  assert (polled w (n + k) = Fail x) as Hp by (unfold polled; by rewrite Hk).
  rewrite wait_polls, (polls_rounds k) by (done || congruence).
  by rewrite Hp.
Qed.

Lemma polls_any fuel : ∀ n,
  ∃ j, j ≤ fuel ∧
    (polls w fuel feature_group n).1.2
    = waiting_trace (name feature_group) (describe_nth w <$> seq n (S j)) ∧
    (polls w fuel feature_group n).2 = S (n + j).
Proof.
  induction fuel as [|fuel IH]; intros n.
  - exists 0. split; [done|]. rewrite Nat.add_0_r. simpl.
    destruct (describe_nth w n) as [d|x] eqn:Hd.
    + destruct (decide (d !! "FeatureGroupStatus" = Some "Creating")) as [Hst|Hst].
      * by rewrite (polls_out_of_fuel _ _ _ _ Hd Hst).
      * by rewrite (polls_settled _ _ _ _ _ Hd Hst).
    + by rewrite (polls_failed _ _ _ _ _ Hd).
  - destruct (describe_nth w n) as [d|x] eqn:Hd.
    + destruct (decide (d !! "FeatureGroupStatus" = Some "Creating")) as [Hst|Hst].
      * rewrite (polls_again _ _ _ _ _ Hd Hst).
        destruct (IH (S n)) as (j & Hj & Hevs & Hn).
        destruct (polls w fuel feature_group (S n)) as [[out evs] n'].
        cbn [fst snd] in *.
        exists (S j). split; [lia|]. subst evs n'. split; [|lia].
        change (seq n (S (S j))) with (n :: seq (S n) (S j)).
        by rewrite fmap_cons, Hd.
      * exists 0. split; [lia|]. rewrite Nat.add_0_r. simpl.
        by rewrite (polls_settled _ _ _ _ _ Hd Hst), Hd.
    + exists 0. split; [lia|]. rewrite Nat.add_0_r. simpl.
      by rewrite (polls_failed _ _ _ _ _ Hd), Hd.
Qed.

(** X10. However the function ends, and for whatever the service answers,
    what it has done is ask [describe()] some j+1 times in a row, with its
    waiting line and a sleep of five seconds between one and the next, and
    then, exactly if it returns, print that the group was created. *)
Theorem wait_trace_any fuel n :
  ∃ j, j ≤ fuel ∧
    (wait_for_feature_group_creation_complete w fuel feature_group n).1.2
    = waiting_trace (name feature_group) (describe_nth w <$> seq n (S j))
      ++ match (wait_for_feature_group_creation_complete w fuel feature_group n).1.1 with
         | Returned _ =>
             [Printed ("FeatureGroup " +:+ name feature_group +:+ " successfully created.")]
         | _ => []
         end ∧
    (wait_for_feature_group_creation_complete w fuel feature_group n).2 = S (n + j).
Proof.
  destruct (polls_any fuel n) as (j & Hj & Hevs & Hn). exists j. split; [done|].
  rewrite wait_polls.
  destruct (polls w fuel feature_group n) as [[[status|e|] evs] n']; simpl in *;
    subst evs n'.
  - case_bool_decide; simpl; by rewrite ?app_nil_r.
  - by rewrite app_nil_r.
  - by rewrite app_nil_r.
Qed.

End Rounds.


(** ** What flows from cell to cell *)

Ltac not_in_list H :=
  repeat (apply elem_of_cons in H as [H|H]; [simplify_eq|]);
  try (by apply elem_of_nil in H).

(** X11. The frame a run ingests is the frame it had the SDK take the
    feature definitions from: nothing changes it in between. *)
Theorem ingested_frame_is_registered_frame w fuel g df workers wait :
  (g, df, workers, wait) ∈ omap ingest_of (run w fuel).2 →
  Loaded g df ∈ omap registration_of (run w fuel).2.
Proof.
  revert g df workers wait.
  run_cells (λ (out : outcome ()) (evs : list event),
    ∀ g df (workers : Z) (wait : bool),
      (g, df, workers, wait) ∈ omap ingest_of evs →
      Loaded g df ∈ omap registration_of evs).
  all: skip_polls; intros g df workers wait Hin.
  all: try (by apply elem_of_nil in Hin).
  all: apply list_elem_of_singleton in Hin; simplify_eq; left.
Qed.

(** X13. The file is fetched from the session's default bucket, under the
    key data/fraud-detection/credit-dataset.csv, and the offline store of
    the feature group is put in that same bucket, under
    sagemaker-featurestore-demo. *)
Theorem data_and_offline_store_share_bucket w fuel bucket key :
  (bucket, key) ∈ omap fetch_of (run w fuel).2 →
  respond w _ default_bucket = Ok bucket ∧
  key = "data/fraud-detection/credit-dataset.csv" ∧
  ∀ g uri rid et role online,
    Created g uri rid et role online ∈ omap registration_of (run w fuel).2 →
    uri = "s3://" +:+ bucket +:+ "/sagemaker-featurestore-demo".
Proof.
  revert bucket key.
  run_cells (λ (out : outcome ()) (evs : list event),
    ∀ bucket key,
      (bucket, key) ∈ omap fetch_of evs →
      respond w _ default_bucket = Ok bucket ∧
      key = "data/fraud-detection/credit-dataset.csv" ∧
      ∀ g uri rid et role online,
        Created g uri rid et role online ∈ omap registration_of evs →
        uri = "s3://" +:+ bucket +:+ "/sagemaker-featurestore-demo").
  all: skip_polls; intros bucket key Hin.
  all: try (by apply elem_of_nil in Hin).
  all: apply list_elem_of_singleton in Hin; simplify_eq.
  all: split_and!; [done|done|]; intros g uri rid et role online Hreg.
  all: revert Hreg; skip_polls; intros Hreg; not_in_list Hreg; reflexivity.
Qed.

(** X14. Every client a run makes, the two of the boto session and the S3
    one, is made for the region the default session reports. *)
Theorem clients_share_region w fuel service region :
  (service, region) ∈ omap client_of (run w fuel).2 →
  respond w _ region_name = Ok region ∧
  service ∈ ["sagemaker"; "sagemaker-featurestore-runtime"; "s3"].
Proof.
  revert service region.
  run_cells (λ (out : outcome ()) (evs : list event),
    ∀ service region,
      (service, region) ∈ omap client_of evs →
      respond w _ region_name = Ok region ∧
      service ∈ ["sagemaker"; "sagemaker-featurestore-runtime"; "s3"]).
  all: skip_polls; intros service region Hin.
  all: not_in_list Hin; (split; [done|]).
  all: first [left|right; left|right; right; left].
Qed.

End Properties.

(** * The sample run, and a refused describe *)

Section SampleRun.
#[local] Existing Instance whole_floats.

Lemma sample_settles : settles sample_world 0 3 (Some "Created").
Proof.
  split; [|split; [reflexivity|discriminate]].
  intros j Hj. destruct j as [|[|[|j]]]; [reflexivity..|lia].
Defined.

(** The sample feature group reads "Created" at its fourth poll, and the
    wait returns. *)
Lemma wait_returns_on_sample :
  settles sample_world 0 3 (Some "Created") ∧ 3 ≤ 3 ∧
  (wait_for_feature_group_creation_complete sample_world 3 fd_feature_group 0).1.1
  = Returned ().
Proof.
  split; [exact sample_settles|]. split; [lia|].
  apply (wait_raises_unless_created sample_world fd_feature_group 0 3
           (Some "Created") 3 sample_settles (le_n 3)).
  reflexivity.
Defined.

(** The sample frame's object column comes out as a string column. *)
Lemma cast_sample_frame :
  let df' := (cast_object_to_string sample_frame).2 in
  let stamps := [PyStr "2021-08-24 03:42:37.420039"; PyStr "2021-08-24 03:42:37.420039"] in
  cast_object_to_string sample_frame = (Ok (), df') ∧
  columns sample_frame !! 3 = Some ("event_time", ObjectSeries stamps) ∧
  ∃ s', columns df' !! 3 = Some ("event_time", s') ∧ dtype_of s' = DString ∧
        objects s' = stamps.
Proof.
  intros df' stamps. split; [reflexivity|]. split; [reflexivity|].
  apply (cast_object_to_string_casts sample_frame df' eq_refl 3 "event_time"
           (ObjectSeries stamps) eq_refl eq_refl).
Defined.

(** The sample frame's first float column is left alone. *)
Lemma cast_keeps_sample_time :
  columns sample_frame !! 0 = Some ("time", @Float64Series whole_floats [Some 0%Z; Some 0%Z]) ∧
  columns (cast_object_to_string sample_frame).2 !! 0
  = Some ("time", @Float64Series whole_floats [Some 0%Z; Some 0%Z]) ∧
  nrows (cast_object_to_string sample_frame).2 = 2.
Proof.
  split; [reflexivity|].
  apply (cast_object_to_string_keeps sample_frame 0 "time"
           (@Float64Series whole_floats [Some 0%Z; Some 0%Z]) eq_refl).
  discriminate.
Defined.

(** C9 as stated fails on a frame that comes with an event_time column,
    as the notebook's own data does: the assignment replaces that column. *)
Lemma event_time_column_is_replaced :
  let df := (cast_object_to_string sample_frame).2 in
  ¬ (∀ i c, columns df !! i = Some c →
            columns (append_event_time df 1629784970) !! i = Some c).
Proof.
  intros df Hkeep. specialize (Hkeep 3 _ eq_refl). discriminate Hkeep.
Qed.

(** The sample run ingests, then looks up record "100" once. *)
Lemma sample_run_looks_up_once :
  IngestDone ∈ omap lookup_step_of (run sample_world 3).2 ∧
  omap lookup_step_of (run sample_world 3).2
  = [GroupCreated "transactionfeaturegroup001"; IngestDone;
     Lookup "transactionfeaturegroup001" "100"].
Proof.
  assert (IngestDone ∈ omap lookup_step_of (run sample_world 3).2) as Hin.
  { vm_compute. right. left. }
  split; [exact Hin|]. exact (one_lookup_after_ingest sample_world 3 Hin).
Defined.

Lemma sample_run_returns : (run sample_world 3).1 = Returned ().
Proof. vm_compute. reflexivity. Defined.

(** The sample run calls [ingest] once. *)
Lemma sample_run_ingests_once :
  (run sample_world 3).1 = Returned () ∧
  length (omap ingest_of (run sample_world 3).2) = 1.
Proof.
  split; [exact sample_run_returns|].
  exact (proj1 (proj2 (one_ingest_call sample_world 3)) sample_run_returns).
Defined.

(** The sample run goes through all the milestones. *)
Lemma sample_run_in_order :
  (run sample_world 3).1 = Returned () ∧
  ∃ k, omap milestone_of (run sample_world 3).2 = story k.
Proof.
  split; [exact sample_run_returns|].
  destruct (proj1 (cells_in_order sample_world 3)) as (k & _ & Hall).
  exists k. exact (Hall sample_run_returns).
Defined.

(** The sample run registers the schema with both calls. *)
Lemma sample_run_registers :
  (run sample_world 3).1 = Returned () ∧
  length (omap registration_of (run sample_world 3).2) = 2.
Proof.
  split; [exact sample_run_returns|].
  exact (proj2 (schema_registration_delegated sample_world 3) sample_run_returns).
Defined.

(** With the group reading "CreateFailed" the run ends in the RuntimeError,
    right after that poll. *)
Lemma failed_creation_raises :
  let msg := "Failed to create feature group " +:+ fd_feature_group_name in
  (run failing_world 0).1 = Raised (RuntimeError msg) ∧
  msg = "Failed to create feature group transactionfeaturegroup001" ∧
  ∃ pre d, (run failing_world 0).2 = pre ++ [Described fd_feature_group_name (Ok d)] ∧
           d !! "FeatureGroupStatus" ≠ Some "Created" ∧
           d !! "FeatureGroupStatus" ≠ Some "Creating".
Proof.
  intros msg.
  assert ((run failing_world 0).1 = Raised (RuntimeError msg)) as Hrun
    by (vm_compute; reflexivity).
  split; [exact Hrun|].
  exact (proj1 (runtime_error_is_the_only_check failing_world 0) msg Hrun).
Defined.

(** The sample frame is on the default index, and the frame the sample
    run ingests has the clock's reading for event_time in both rows. *)
Lemma sample_run_event_time :
  let data := append_event_time (cast_object_to_string sample_frame).2 1629784970 in
  index sample_frame = RangeIndex (len sample_frame) ∧
  event_time_series sample_frame 1629784970
  = @Float64Series whole_floats [Some 1629784970%Z; Some 1629784970%Z] ∧
  (fd_feature_group_name, data, 3%Z, true) ∈ omap ingest_of (run sample_world 3).2 ∧
  ∃ body df0 t,
    respond sample_world _ (read_csv body) = Ok df0 ∧
    omap clock_of (run sample_world 3).2 = [Ok t] ∧
    data = append_event_time (cast_object_to_string df0).2 (current_time_sec t) ∧
    index data = index df0 ∧
    (index df0 = RangeIndex (len df0) →
       ∀ i c, columns data !! i = Some (event_time_feature_name, c) →
         c = Float64Series (replicate (len df0) (float_of_int (current_time_sec t)))).
Proof.
  intros data.
  assert ((fd_feature_group_name, data, 3%Z, true)
          ∈ omap ingest_of (run sample_world 3).2) as Hin
    by (vm_compute; left).
  destruct (event_time_column sample_frame 1629784970 sample_world 3)
    as (_ & [_ Hdefault] & Hrun).
  split; [reflexivity|]. split; [exact (Hdefault eq_refl)|].
  split; [exact Hin|]. exact (Hrun _ _ _ _ Hin).
Defined.

(** On row labels taken from the file, a row keeps the reading only where
    its label is 0 or 1 or 2: here the second row, labelled 0. *)
Example event_time_on_keyed_frame :
  index keyed_frame ≠ RangeIndex (len keyed_frame) ∧
  event_time_series keyed_frame 1629784970
  = @Float64Series whole_floats [None; Some 1629784970%Z; None].
Proof. split; [discriminate|reflexivity]. Qed.

(** The sample wait comes to an end: its fourth poll reads "Created". *)
Lemma sample_wait_terminates :
  (∃ k status, polled sample_world (0 + k) = Ok status ∧ status ≠ Some "Creating") ∧
  terminates sample_world fd_feature_group 0.
Proof.
  split.
  - exists 3, (Some "Created"). split; [reflexivity|discriminate].
  - apply (proj1 (wait_terminates_iff sample_world fd_feature_group 0)).
    exists 3. left. exists (Some "Created"). split; [reflexivity|discriminate].
Defined.

(** C10 as stated fails where a [describe()] raises: the call ends, with
    that exception, and no poll has read a status other than "Creating". *)
Lemma refused_describe_ends_the_wait :
  ¬ (terminates throttled_world fd_feature_group 0 ↔
     ∃ k status, polled throttled_world (0 + k) = Ok status ∧ status ≠ Some "Creating").
Proof.
  intros [Hread _].
  destruct Hread as (k & status & Hk & Hne).
  - exists 0. discriminate.
  - destruct k as [|k]; [discriminate|].
    apply Hne. by injection Hk as <-.
Qed.


(** ** Further properties, on the samples *)

Lemma repeated_frame_labels_repeat : ¬ NoDup (labels repeated_frame).
Proof.
  intros Hnd. apply NoDup_cons in Hnd as [_ Hnd]. apply NoDup_cons in Hnd as [Hin _].
  apply Hin. right. left.
Defined.

(** The frame with a repeated label makes the cast raise. *)
Lemma cast_raises_on_repeated_frame :
  ¬ NoDup (labels repeated_frame) ∧
  (cast_object_to_string repeated_frame).1 ≠ Ok ().
Proof.
  split; [exact repeated_frame_labels_repeat|].
  intros Hok. apply repeated_frame_labels_repeat.
  exact (proj1 (proj1 (cast_object_to_string_returns_iff repeated_frame)) Hok).
Defined.

(** The sample frame has no object column once cast. *)
Lemma cast_sample_leaves_no_object :
  let df' := (cast_object_to_string sample_frame).2 in
  cast_object_to_string sample_frame = (Ok (), df') ∧
  labels df' = ["time"; "amount"; "class"; "event_time"; "record_id"] ∧
  ∀ i label s, columns df' !! i = Some (label, s) → dtype_of s ≠ DObject.
Proof.
  intros df'. split; [reflexivity|].
  exact (cast_object_to_string_leaves_no_object sample_frame df' eq_refl).
Defined.

(** Casting the sample frame a second time changes nothing. *)
Lemma cast_sample_twice :
  let df' := (cast_object_to_string sample_frame).2 in
  cast_object_to_string sample_frame = (Ok (), df') ∧
  cast_object_to_string df' = (Ok (), df').
Proof.
  intros df'. split; [reflexivity|].
  exact (cast_object_to_string_twice sample_frame df' eq_refl).
Defined.

Lemma sample_frame_aligned : aligned sample_frame.
Proof. repeat constructor. Defined.

(** The sample frame stays aligned through the cast. *)
Lemma cast_sample_keeps_shape :
  aligned sample_frame ∧ aligned (cast_object_to_string sample_frame).2.
Proof.
  split; [exact sample_frame_aligned|].
  exact (proj2 (cast_object_to_string_keeps_shape sample_frame) sample_frame_aligned).
Defined.

(** On the frame with "amount" twice the cast raises at "amount", with
    "merchant" cast already and "note" still an object column. *)
Lemma cast_stops_on_repeated_frame :
  labels repeated_frame = ["merchant"] ++ "amount" :: ["note"; "amount"] ∧
  cast_object_to_string repeated_frame
  = (Fail ambiguous_truth,
     frame (RangeIndex 1)
       [("merchant", StringSeries [Some "acme"]);
        ("amount", @Float64Series whole_floats [Some 149%Z]);
        ("note", ObjectSeries [PyNone]);
        ("amount", Int64Series [2%Z])]).
Proof.
  split; [reflexivity|].
  apply (cast_object_to_string_stops_at_repeated_label repeated_frame
           ["merchant"] "amount" ["note"; "amount"] eq_refl).
  - apply NoDup_singleton.
  - intros l Hl. apply list_elem_of_singleton in Hl as ->.
    intros Hin. repeat (apply elem_of_cons in Hin as [Hin|Hin]; [discriminate|]).
    by apply elem_of_nil in Hin.
  - right. left.
Defined.

(** The frame prepared from the sample frame has no object column. *)
Lemma sample_prepared_ready :
  (cast_object_to_string sample_frame).1 = Ok () ∧
  labels (prepared sample_frame (Some 1629784970%Z))
  = ["time"; "amount"; "class"; "event_time"; "record_id"] ∧
  aligned (prepared sample_frame (Some 1629784970%Z)).
Proof.
  split; [reflexivity|].
  destruct (prepared_frame_ready sample_frame (Some 1629784970%Z) eq_refl) as (_ & Hl & Hal).
  split; [exact Hl|exact (Hal sample_frame_aligned)].
Defined.

(** The sample wait: four polls, three rounds of waiting, fifteen seconds. *)
Lemma sample_wait_trace :
  settles sample_world 0 3 (Some "Created") ∧ 3 ≤ 3 ∧
  omap sleep_of
    (wait_for_feature_group_creation_complete sample_world 3 fd_feature_group 0).1.2
  = [5%Z; 5%Z; 5%Z] ∧
  (wait_for_feature_group_creation_complete sample_world 3 fd_feature_group 0).2 = 4.
Proof.
  split; [exact sample_settles|]. split; [lia|].
  destruct (wait_trace_when_settled sample_world fd_feature_group 0 3
              (Some "Created") 3 sample_settles (le_n 3)) as [Heq Hsleep].
  split; [exact Hsleep|]. by rewrite Heq.
Defined.

(** A refused first [describe()] ends the wait with that refusal. *)
Lemma throttled_wait_raises :
  describe_nth throttled_world 0 = Fail (LibExn "ClientError" "ThrottlingException") ∧
  (wait_for_feature_group_creation_complete throttled_world 0 fd_feature_group 0).1.1
  = Raised (Propagated (LibExn "ClientError" "ThrottlingException")).
Proof.
  split; [reflexivity|].
  rewrite (wait_propagates_describe_failure throttled_world fd_feature_group 0 0
             (LibExn "ClientError" "ThrottlingException") 0);
    [reflexivity|intros j Hj; lia|reflexivity|lia].
Defined.

(** The sample run ingests the frame it registered. *)
Lemma sample_run_ingests_registered_frame :
  let data := prepared sample_frame (Some 1629784970%Z) in
  (fd_feature_group_name, data, 3%Z, true) ∈ omap ingest_of (run sample_world 3).2 ∧
  Loaded fd_feature_group_name data ∈ omap registration_of (run sample_world 3).2.
Proof.
  intros data.
  assert ((fd_feature_group_name, data, 3%Z, true)
          ∈ omap ingest_of (run sample_world 3).2) as Hin
    by (vm_compute; left).
  split; [exact Hin|].
  exact (ingested_frame_is_registered_frame sample_world 3 _ _ _ _ Hin).
Defined.

(** The sample run fetches from the default bucket. *)
Lemma sample_run_bucket :
  ("sagemaker-ap-southeast-1", "data/fraud-detection/credit-dataset.csv")
  ∈ omap fetch_of (run sample_world 3).2 ∧
  respond sample_world _ default_bucket = Ok "sagemaker-ap-southeast-1".
Proof.
  assert (("sagemaker-ap-southeast-1", "data/fraud-detection/credit-dataset.csv")
          ∈ omap fetch_of (run sample_world 3).2) as Hin
    by (vm_compute; left).
  split; [exact Hin|].
  exact (proj1 (data_and_offline_store_share_bucket sample_world 3 _ _ Hin)).
Defined.

(** The sample run's S3 client is made for the session's region. *)
Lemma sample_run_region :
  ("s3", Some "ap-southeast-1") ∈ omap client_of (run sample_world 3).2 ∧
  respond sample_world _ region_name = Ok (Some "ap-southeast-1").
Proof.
  assert (("s3", Some "ap-southeast-1") ∈ omap client_of (run sample_world 3).2) as Hin
    by (vm_compute; right; right; left).
  split; [exact Hin|].
  exact (proj1 (clients_share_region sample_world 3 _ _ Hin)).
Defined.

End SampleRun.
